(** * go-openai: the chat-completion stream wrapper and the moderation call

    A shallow embedding of the chat-completion stream file and of
    [moderation.go].

    - Go strings are [string], [int]/[int64] are [Z], [float64] is the
      binary64 type [PrimFloat.float], slices are lists, pointers that may
      be nil are [option], Go maps are stdpp [gmap]s.
    - A Go [error] value is [option error]: [None] is [nil].
    - An interface value is a method table; the mutable object behind it is
      threaded explicitly as a state of type [St].  A method that the dynamic
      type may or may not have (the target of a type assertion) is an
      [option] in the table.
    - Types, constants and functions of the package that are declared in
      other files are Section variables. *)

From Stdlib Require Floats.
From Stdlib Require Import Ascii.
From stdpp Require Import gmap strings list fin_maps.

Local Open Scope string_scope.

(** ** Errors *)

(** The package-level error values the two files return by name, the four
    kinds of the stream reader's error taxonomy, and any other error a
    collaborator may hand back. *)
Inductive error : Type :=
| ErrChatCompletionInvalidModel
| ErrModerationInvalidModel
| EndOfStream
| ClosedStreamError
| DecodeError (payload : string)
| TransportError (msg : string)
| OtherError (msg : string).

#[global] Instance error_eq_dec : EqDecision error.
Proof. solve_decision. Defined.

(** [http.Header] is [map[string][]string]. *)
Abbreviation http_Header := (gmap string (list string)).

(** The result of a call that may panic. *)
Inductive outcome (A : Type) : Type :=
| Ret (a : A)
| Panic.
Arguments Ret {A} a.
Arguments Panic {A}.

(** ** chat_stream.go *)

Section ChatStream.

(** Types declared in other files of the package. *)
Context {FunctionCall ToolCall FinishReason ContentFilterResults
         PromptAnnotation Usage : Type}.

Record ChatCompletionStreamChoiceDelta : Type := {
  Delta_Content : string;
  Delta_Role : string;
  Delta_FunctionCall : option FunctionCall;
  Delta_ToolCalls : list ToolCall;
  Delta_Refusal : string;
  Delta_ReasoningContent : string
}.

Record ChatCompletionTokenLogprobTopLogprob : Type := {
  TopLogprob_Token : string;
  TopLogprob_Bytes : list Z;
  TopLogprob_Logprob : PrimFloat.float
}.

Record ChatCompletionTokenLogprob : Type := {
  Logprob_Token : string;
  Logprob_Bytes : list Z;
  Logprob_Logprob : PrimFloat.float;
  Logprob_TopLogprobs : list ChatCompletionTokenLogprobTopLogprob
}.

Record ChatCompletionStreamChoiceLogprobs : Type := {
  Logprobs_Content : list ChatCompletionTokenLogprob;
  Logprobs_Refusal : list ChatCompletionTokenLogprob
}.

Record ChatCompletionStreamChoice : Type := {
  Choice_Index : Z;
  Choice_Delta : ChatCompletionStreamChoiceDelta;
  Choice_Logprobs : option ChatCompletionStreamChoiceLogprobs;
  Choice_FinishReason : FinishReason;
  Choice_ContentFilterResults : ContentFilterResults
}.

Record PromptFilterResult : Type := {
  Filter_Index : Z;
  Filter_ContentFilterResults : ContentFilterResults
}.

Record ChatCompletionStreamResponse : Type := {
  ID : string;
  Object : string;
  Created : Z;
  Model : string;
  Choices : list ChatCompletionStreamChoice;
  SystemFingerprint : string;
  PromptAnnotations : list PromptAnnotation;
  PromptFilterResults : list PromptFilterResult;
  Usage_ : option Usage
}.

(** The zero value [ChatCompletionStreamResponse{}]. *)
Definition zeroResponse : ChatCompletionStreamResponse :=
  {| ID := ""; Object := ""; Created := 0; Model := ""; Choices := [];
     SystemFingerprint := ""; PromptAnnotations := [];
     PromptFilterResults := []; Usage_ := None |}.

(** [RateLimitHeaders] is declared in another file; the method below reads
    these six fields and calls [String()] on the last two. *)
Context {Count ResetTime : Type} (ResetTime_String : ResetTime -> string).

Record RateLimitHeaders : Type := {
  LimitRequests : Count;
  LimitTokens : Count;
  RemainingRequests : Count;
  RemainingTokens : Count;
  ResetRequests : ResetTime;
  ResetTokens : ResetTime
}.

(** A value stored in [map[string]interface{}] by [GetRateLimitHeaders]:
    its dynamic type is the count type or [string]. *)
Inductive any : Type :=
| any_count (n : Count)
| any_string (s : string).

(** The object behind a reader, and whatever it reads from. *)
Context {St : Type}.

(** [ChatStreamReader]: the two methods of the interface, and the two
    methods the wrapper probes for by type assertion.  The methods are
    those of a reader whose calls return: a reader whose own method
    panics is outside this model, and nothing below is said of one. *)
Record ChatStreamReader : Type := {
  reader_Recv : St -> (ChatCompletionStreamResponse * option error) * St;
  reader_Close : St -> option error * St;
  reader_Header : option (St -> http_Header * St);
  reader_GetRateLimitHeaders : option (St -> RateLimitHeaders * St)
}.

(** [ChatCompletionStream]: the [reader] field holds an interface value,
    which may be nil. *)
Record ChatCompletionStream : Type := {
  reader : option ChatStreamReader
}.

Definition NewChatCompletionStream (r : option ChatStreamReader)
  : ChatCompletionStream :=
  {| reader := r |}.

(** Calling a method on a nil interface value panics. *)
Definition Recv (s : ChatCompletionStream) (st : St)
  : outcome (ChatCompletionStreamResponse * option error) * St :=
  match reader s with
  | Some r => let '(res, st') := reader_Recv r st in (Ret res, st')
  | None => (Panic, st)
  end.

Definition Close (s : ChatCompletionStream) (st : St)
  : outcome (option error) * St :=
  match reader s with
  | Some r => let '(e, st') := reader_Close r st in (Ret e, st')
  | None => (Panic, st)
  end.

(** A type assertion on a nil interface value yields [ok = false]. *)
Definition Header (s : ChatCompletionStream) (st : St)
  : outcome http_Header * St :=
  match reader s with
  | Some r =>
      match reader_Header r with
      | Some h => let '(hd, st') := h st in (Ret hd, st')
      | None => (Ret ∅, st)
      end
  | None => (Ret ∅, st)
  end.

Definition rateLimitMap (headers : RateLimitHeaders) : gmap string any :=
  <["x-ratelimit-limit-requests" := any_count (LimitRequests headers)]>
  (<["x-ratelimit-limit-tokens" := any_count (LimitTokens headers)]>
  (<["x-ratelimit-remaining-requests" := any_count (RemainingRequests headers)]>
  (<["x-ratelimit-remaining-tokens" := any_count (RemainingTokens headers)]>
  (<["x-ratelimit-reset-requests" := any_string (ResetTime_String (ResetRequests headers))]>
  (<["x-ratelimit-reset-tokens" := any_string (ResetTime_String (ResetTokens headers))]>
   ∅))))).

Definition GetRateLimitHeaders (s : ChatCompletionStream) (st : St)
  : outcome (gmap string any) * St :=
  match reader s with
  | Some r =>
      match reader_GetRateLimitHeaders r with
      | Some h => let '(headers, st') := h st in (Ret (rateLimitMap headers), st')
      | None => (Ret ∅, st)
      end
  | None => (Ret ∅, st)
  end.

(** [n] successive calls of [Recv] on the wrapper: the results in call
    order and the state they leave. *)
Fixpoint RecvN (s : ChatCompletionStream) (n : nat) (st : St)
  : list (outcome (ChatCompletionStreamResponse * option error)) * St :=
  match n with
  | O => ([], st)
  | S k =>
      let '(o, st1) := Recv s st in
      let '(os, st2) := RecvN s k st1 in
      (o :: os, st2)
  end.

(** The same on the reader itself. *)
Fixpoint reader_RecvN (r : ChatStreamReader) (n : nat) (st : St)
  : list (ChatCompletionStreamResponse * option error) * St :=
  match n with
  | O => ([], st)
  | S k =>
      let '(o, st1) := reader_Recv r st in
      let '(os, st2) := reader_RecvN r k st1 in
      (o :: os, st2)
  end.

(** The [ok] of the two type assertions. *)
Definition has_Header (s : ChatCompletionStream) : bool :=
  match reader s with
  | Some r => bool_decide (is_Some (reader_Header r))
  | None => false
  end.

Definition has_GetRateLimitHeaders (s : ChatCompletionStream) : bool :=
  match reader s with
  | Some r => bool_decide (is_Some (reader_GetRateLimitHeaders r))
  | None => false
  end.

(** The six keys of the rate-limit map. *)
Definition rateLimitKeys : gset string :=
  {[ "x-ratelimit-limit-requests"; "x-ratelimit-limit-tokens";
     "x-ratelimit-remaining-requests"; "x-ratelimit-remaining-tokens";
     "x-ratelimit-reset-requests"; "x-ratelimit-reset-tokens" ]}.

(** The closed-stream contract, stated on the wrapper: closing twice
    leaves the stream where closing once left it, and every [Recv] from
    then on reports [ClosedStreamError]. *)
Definition close_contract (s : ChatCompletionStream) : Prop :=
  forall st,
    (Close s (Close s st).2).2 = (Close s st).2
    /\ forall n,
         Forall (fun o => exists resp, o = Ret (resp, Some ClosedStreamError))
                (RecvN s n (Close s st).2).1.

(** The same contract stated on the reader's own methods. *)
Definition reader_close_contract (r : ChatStreamReader) : Prop :=
  forall st,
    (reader_Close r (reader_Close r st).2).2 = (reader_Close r st).2
    /\ forall n,
         Forall (fun o => exists resp, o = (resp, Some ClosedStreamError))
                (reader_RecvN r n (reader_Close r st).2).1.

(** *** Lemmas on the wrapper *)

Lemma Recv_Some r st :
  Recv (NewChatCompletionStream (Some r)) st
  = (Ret (reader_Recv r st).1, (reader_Recv r st).2).
Proof. unfold Recv; simpl. by destruct (reader_Recv r st). Qed.

Lemma Close_Some r st :
  Close (NewChatCompletionStream (Some r)) st
  = (Ret (reader_Close r st).1, (reader_Close r st).2).
Proof. unfold Close; simpl. by destruct (reader_Close r st). Qed.

Lemma RecvN_Some r n st :
  RecvN (NewChatCompletionStream (Some r)) n st
  = (Ret <$> (reader_RecvN r n st).1, (reader_RecvN r n st).2).
Proof.
  revert st. induction n as [|n IH]; intros st; [done|].
  cbn [RecvN reader_RecvN]. rewrite Recv_Some.
  destruct (reader_Recv r st) as [o st1]; cbn [fst snd].
  rewrite IH. by destruct (reader_RecvN r n st1).
Qed.

Lemma rateLimitMap_dom headers : dom (rateLimitMap headers) = rateLimitKeys.
Proof.
  unfold rateLimitMap, rateLimitKeys.
  rewrite !dom_insert_L, dom_empty_L. set_solver.
Qed.

Lemma rateLimitKeys_size : size rateLimitKeys = 6.
Proof. by vm_compute. Qed.

Lemma rateLimitMap_size headers : size (rateLimitMap headers) = 6.
Proof. by rewrite <- size_dom, rateLimitMap_dom, rateLimitKeys_size. Qed.

Lemma rateLimitMap_lookup headers :
  rateLimitMap headers !! "x-ratelimit-limit-requests"
    = Some (any_count (LimitRequests headers))
  /\ rateLimitMap headers !! "x-ratelimit-limit-tokens"
    = Some (any_count (LimitTokens headers))
  /\ rateLimitMap headers !! "x-ratelimit-remaining-requests"
    = Some (any_count (RemainingRequests headers))
  /\ rateLimitMap headers !! "x-ratelimit-remaining-tokens"
    = Some (any_count (RemainingTokens headers))
  /\ rateLimitMap headers !! "x-ratelimit-reset-requests"
    = Some (any_string (ResetTime_String (ResetRequests headers)))
  /\ rateLimitMap headers !! "x-ratelimit-reset-tokens"
    = Some (any_string (ResetTime_String (ResetTokens headers))).
Proof. unfold rateLimitMap. repeat split; by simplify_map_eq. Qed.

(** *** Properties of the wrapper *)

(** C1: when the reader (nil or not) has no [Header] method, [Header]
    returns the empty [http.Header]; when it has no [GetRateLimitHeaders]
    method, [GetRateLimitHeaders] returns the empty map.  Neither call
    panics, and neither touches the reader. *)
Theorem accessors_empty_when_absent (s : ChatCompletionStream) (st : St) :
  (has_Header s = false -> Header s st = (Ret ∅, st))
  /\ (has_GetRateLimitHeaders s = false ->
      GetRateLimitHeaders s st = (Ret ∅, st)).
Proof.
  unfold has_Header, has_GetRateLimitHeaders, Header, GetRateLimitHeaders.
  destruct (reader s) as [r|]; [|done].
  split; intros Hno.
  - destruct (reader_Header r) as [h|] eqn:Hh; [|done].
    apply bool_decide_eq_false in Hno. destruct Hno; eauto.
  - destruct (reader_GetRateLimitHeaders r) as [h|] eqn:Hh; [|done].
    apply bool_decide_eq_false in Hno. destruct Hno; eauto.
Qed.

(** C2: when the reader has a [GetRateLimitHeaders] method, the wrapper
    returns a map whose keys are exactly the six rate-limit header names;
    the four counts are stored as they are and the two reset times as the
    strings their [String()] gives. *)
Theorem GetRateLimitHeaders_six_keys (r : ChatStreamReader)
    (h : St -> RateLimitHeaders * St) (st : St) :
  reader_GetRateLimitHeaders r = Some h ->
  exists m,
    GetRateLimitHeaders (NewChatCompletionStream (Some r)) st
      = (Ret m, (h st).2)
    /\ dom m = rateLimitKeys
    /\ size m = 6
    /\ m !! "x-ratelimit-limit-requests"
        = Some (any_count (LimitRequests (h st).1))
    /\ m !! "x-ratelimit-limit-tokens"
        = Some (any_count (LimitTokens (h st).1))
    /\ m !! "x-ratelimit-remaining-requests"
        = Some (any_count (RemainingRequests (h st).1))
    /\ m !! "x-ratelimit-remaining-tokens"
        = Some (any_count (RemainingTokens (h st).1))
    /\ m !! "x-ratelimit-reset-requests"
        = Some (any_string (ResetTime_String (ResetRequests (h st).1)))
    /\ m !! "x-ratelimit-reset-tokens"
        = Some (any_string (ResetTime_String (ResetTokens (h st).1))).
Proof.
  intros Hh. exists (rateLimitMap (h st).1).
  split; [|split; [apply rateLimitMap_dom |
                   split; [apply rateLimitMap_size | apply rateLimitMap_lookup]]].
  unfold GetRateLimitHeaders; simpl. rewrite Hh. by destruct (h st).
Qed.

(** C3: on a stream built around a reader, each [Recv] returns the very
    pair the reader's [Recv] returns and leaves the reader as that call
    left it; so does every call of a run of [n] calls. *)
Theorem Recv_returns_reader_pair (r : ChatStreamReader) (n : nat) (st : St) :
  Recv (NewChatCompletionStream (Some r)) st
    = (Ret (reader_Recv r st).1, (reader_Recv r st).2)
  /\ RecvN (NewChatCompletionStream (Some r)) n st
    = (Ret <$> (reader_RecvN r n st).1, (reader_RecvN r n st).2).
Proof. split; [apply Recv_Some | apply RecvN_Some]. Qed.

(** The wrapper meets the closed-stream contract exactly when the reader
    does. *)
Lemma close_contract_iff (r : ChatStreamReader) :
  close_contract (NewChatCompletionStream (Some r)) <-> reader_close_contract r.
Proof.
  unfold close_contract, reader_close_contract.
  split; intros H st; destruct (H st) as [Hidem Hrecv]; clear H.
  - rewrite !Close_Some in Hidem; cbn [snd] in Hidem.
    split; [done|]. intros n. specialize (Hrecv n).
    rewrite Close_Some, RecvN_Some in Hrecv; cbn [fst snd] in Hrecv.
    rewrite Forall_fmap in Hrecv.
    eapply Forall_impl; [exact Hrecv|].
    intros o [resp Ho]; simpl in Ho. exists resp. congruence.
  - rewrite !Close_Some; cbn [snd]. split; [done|]. intros n.
    rewrite RecvN_Some; cbn [fst]. rewrite Forall_fmap.
    eapply Forall_impl; [exact (Hrecv n)|].
    intros o [resp ->]; simpl. by exists resp.
Qed.

(** The captured headers survive any number of reads. *)
Lemma captured_RecvN (r : ChatStreamReader) (captured : St -> http_Header) :
  (forall st, captured (reader_Recv r st).2 = captured st) ->
  forall n st, captured (reader_RecvN r n st).2 = captured st.
Proof.
  intros Hcap n. induction n as [|n IH]; intros st; [done|].
  cbn [reader_RecvN]. specialize (Hcap st).
  destruct (reader_Recv r st) as [o st1]; cbn [snd] in Hcap.
  specialize (IH st1). destruct (reader_RecvN r n st1) as [os st2].
  cbn [snd] in *. congruence.
Qed.

(** C4: let the reader's rate-limit accessor be a pure function [parse] of
    the headers it captured when the stream was opened, and let reading a
    record leave those captured headers alone.  Then
    [GetRateLimitHeaders] gives the same map after any number [n] of
    [Recv] calls as after any other number [k], namely the map of
    [parse] of the captured headers, and does not change the reader. *)
Theorem GetRateLimitHeaders_stable (r : ChatStreamReader)
    (acc : St -> RateLimitHeaders * St)
    (captured : St -> http_Header)
    (parse : http_Header -> RateLimitHeaders) :
  reader_GetRateLimitHeaders r = Some acc ->
  (forall st, acc st = (parse (captured st), st)) ->
  (forall st, captured (reader_Recv r st).2 = captured st) ->
  forall (n k : nat) (st : St),
    (GetRateLimitHeaders (NewChatCompletionStream (Some r))
       (RecvN (NewChatCompletionStream (Some r)) n st).2).1
    = (GetRateLimitHeaders (NewChatCompletionStream (Some r))
         (RecvN (NewChatCompletionStream (Some r)) k st).2).1
    /\ GetRateLimitHeaders (NewChatCompletionStream (Some r))
         (RecvN (NewChatCompletionStream (Some r)) n st).2
       = (Ret (rateLimitMap (parse (captured st))),
          (RecvN (NewChatCompletionStream (Some r)) n st).2).
Proof.
  intros Hacc Hpure Hcap n k st.
  assert (Hget : forall j,
    GetRateLimitHeaders (NewChatCompletionStream (Some r))
      (RecvN (NewChatCompletionStream (Some r)) j st).2
    = (Ret (rateLimitMap (parse (captured st))),
       (RecvN (NewChatCompletionStream (Some r)) j st).2)).
  { intros j. rewrite RecvN_Some; cbn [snd].
    unfold GetRateLimitHeaders; simpl. rewrite Hacc, Hpure.
    by rewrite (captured_RecvN r captured Hcap). }
  split; [by rewrite !Hget | apply Hget].
Qed.

(** C5 (as the code has it): [Close] returns what the reader's [Close]
    returns and leaves the reader as that call left it; every later [Recv]
    returns what the reader's [Recv] returns from there.  The wrapper keeps
    no closed flag of its own, so it meets the closed-stream contract
    exactly when the reader's own methods meet it. *)
Theorem Close_delegates_to_reader (r : ChatStreamReader) :
  (forall st,
     Close (NewChatCompletionStream (Some r)) st
     = (Ret (reader_Close r st).1, (reader_Close r st).2))
  /\ (forall n st,
       RecvN (NewChatCompletionStream (Some r)) n
         (Close (NewChatCompletionStream (Some r)) st).2
       = (Ret <$> (reader_RecvN r n (reader_Close r st).2).1,
          (reader_RecvN r n (reader_Close r st).2).2))
  /\ (close_contract (NewChatCompletionStream (Some r))
      <-> reader_close_contract r).
Proof.
  split; [apply Close_Some|].
  split; [intros n st; by rewrite Close_Some, RecvN_Some|].
  apply close_contract_iff.
Qed.

End ChatStream.

(** ** The stream reader behind the wrapper

    [sendRequestStream] and the reader it returns are declared in another
    file.  This section follows the specification of that reader
    (Event-Frame Decoder and Typed Stream Reader) and plugs it into the
    wrapper above. *)

Section StreamReader.

Context {FunctionCall ToolCall FinishReason ContentFilterResults
         PromptAnnotation Usage : Type}.
Context {Count ResetTime : Type}.

Local Abbreviation Response :=
  (@ChatCompletionStreamResponse FunctionCall ToolCall FinishReason
     ContentFilterResults PromptAnnotation Usage).
Local Abbreviation Snapshot := (@RateLimitHeaders Count ResetTime).

(** The two collaborators the reader needs from outside: the JSON decoder
    of a Stream Record, and the parser of the rate-limit headers. *)
Variable decode : string -> option Response.
Variable parseRateLimits : http_Header -> Snapshot.

(** Modelled from the spec: the data prefix and the sentinel payload of
    the wire format, absent from the source files. *)
Definition dataPrefix : string := "data:".
Definition sentinel : string := "[DONE]".

(** Modelled from the spec: the whitespace that trimming a payload removes
    (space, tab, line feed, vertical tab, form feed, carriage return). *)
Definition is_space (c : ascii) : bool :=
  match c with
  | " " | "009" | "010" | "011" | "012" | "013" => true
  | _ => false
  end%char.

(** Modelled from the spec: stripping the prefix of a line.
    [trimPrefix p s] is [Some rest] when [s = p ++ rest], [None] when [s]
    does not begin with [p]. *)
Fixpoint trimPrefix (p s : string) : option string :=
  match p, s with
  | EmptyString, _ => Some s
  | String a p', String b s' =>
      if Ascii.eqb a b then trimPrefix p' s' else None
  | String _ _, EmptyString => None
  end.

(** Modelled from the spec: trimming the surrounding whitespace of a
    payload. *)
Fixpoint trimLeft (s : string) : string :=
  match s with
  | String c s' => if is_space c then trimLeft s' else s
  | EmptyString => EmptyString
  end.

(** Modelled from the spec: the same at the end of the payload. *)
Fixpoint trimRight (s : string) : string :=
  match s with
  | String c s' =>
      let t := trimRight s' in
      if is_space c && String.eqb t "" then "" else String c t
  | EmptyString => EmptyString
  end.

(** Modelled from the spec: a payload trimmed at both ends. *)
Definition trimSpace (s : string) : string := trimRight (trimLeft s).

(** Modelled from the spec: the line-delimited input source, absent from
    the source files.  One read gives a line or a failure of the
    connection; an exhausted list is a connection that ended. *)
Inductive TransportRead : Type :=
| ReadLine (line : string)
| ReadFailure (msg : string).

(** Modelled from the spec: what [next()] returns, a Raw Frame, the
    "stream ended" signal, or a transport error. *)
Inductive FrameResult : Type :=
| RawFrame (payload : string)
| StreamEnded
| FrameFailure (e : error).

(** Modelled from the spec: the Event-Frame Decoder's [next()], absent from
    the source files.  A line beginning with the data prefix yields a
    candidate frame, the prefix stripped and the payload trimmed; a frame
    whose trimmed payload is the sentinel signals the end of the stream;
    any other line is discarded; a read failure, or the connection ending
    without a sentinel, is a transport error. *)
Fixpoint next (input : list TransportRead) : FrameResult * list TransportRead :=
  match input with
  | [] => (FrameFailure (TransportError "connection ended"), [])
  | ReadFailure msg :: rest => (FrameFailure (TransportError msg), rest)
  | ReadLine l :: rest =>
      match trimPrefix dataPrefix l with
      | Some payload =>
          if String.eqb (trimSpace payload) sentinel
          then (StreamEnded, rest)
          else (RawFrame (trimSpace payload), rest)
      | None => next rest
      end
  end.

(** Modelled from the spec: the Stream State, one of Open, Done, Closed,
    Errored, absent from the source files. *)
Inductive StreamState : Type :=
| Open
| Done
| Closed
| Errored (cause : error).

(** Modelled from the spec: the Typed Stream Reader, absent from the
    source files: what is left to read, its state, and the response
    headers captured when the call was established. *)
Record streamReader : Type := {
  sr_input : list TransportRead;
  sr_state : StreamState;
  sr_headers : http_Header
}.

(** Modelled from the spec: the Typed Stream Reader's [receive()], absent
    from the source files.  Once Done, Errored or Closed it returns the
    terminal error without reading; when Open it pulls the next frame and
    either ends the stream (Done), fails (Errored), or decodes the payload
    and returns the record, staying Open. *)
Definition receive (sr : streamReader)
  : (Response * option error) * streamReader :=
  match sr_state sr with
  | Done => ((zeroResponse, Some EndOfStream), sr)
  | Closed => ((zeroResponse, Some ClosedStreamError), sr)
  | Errored e => ((zeroResponse, Some e), sr)
  | Open =>
      match next (sr_input sr) with
      | (StreamEnded, rest) =>
          ((zeroResponse, Some EndOfStream),
           {| sr_input := rest; sr_state := Done; sr_headers := sr_headers sr |})
      | (FrameFailure e, rest) =>
          ((zeroResponse, Some e),
           {| sr_input := rest; sr_state := Errored e;
              sr_headers := sr_headers sr |})
      | (RawFrame payload, rest) =>
          match decode payload with
          | Some record =>
              ((record, None),
               {| sr_input := rest; sr_state := Open;
                  sr_headers := sr_headers sr |})
          | None =>
              ((zeroResponse, Some (DecodeError payload)),
               {| sr_input := rest; sr_state := Errored (DecodeError payload);
                  sr_headers := sr_headers sr |})
          end
      end
  end.

(** Modelled from the spec: the Typed Stream Reader's [close()], absent
    from the source files: from any state to Closed, releasing the
    connection; no transition leaves Closed. *)
Definition close (sr : streamReader) : option error * streamReader :=
  (None, {| sr_input := []; sr_state := Closed; sr_headers := sr_headers sr |}).

(** Modelled from the spec: [headers()] and [rateLimits()] of the Typed
    Stream Reader, absent from the source files: the headers captured
    when the call was established, and the snapshot parsed from them. *)
Definition headers (sr : streamReader) : http_Header * streamReader :=
  (sr_headers sr, sr).

Definition rateLimits (sr : streamReader) : Snapshot * streamReader :=
  (parseRateLimits (sr_headers sr), sr).

(** Modelled from the spec: the reader [sendRequestStream] hands to the
    wrapper, absent from the source files, as a [ChatStreamReader]. *)
Definition streamReaderMethods : ChatStreamReader :=
  {| reader_Recv := receive;
     reader_Close := close;
     reader_Header := Some headers;
     reader_GetRateLimitHeaders := Some rateLimits |}.

(** Modelled from the spec: well-formed input before a sentinel.
    [yields input records]: [input] holds no sentinel and no failure; its
    data lines decode, in order, to [records]; its other lines are
    discarded. *)
Inductive yields : list TransportRead -> list Response -> Prop :=
| yields_nil : yields [] []
| yields_skip l rest rs :
    trimPrefix dataPrefix l = None ->
    yields rest rs ->
    yields (ReadLine l :: rest) rs
| yields_frame l payload record rest rs :
    trimPrefix dataPrefix l = Some payload ->
    String.eqb (trimSpace payload) sentinel = false ->
    decode (trimSpace payload) = Some record ->
    yields rest rs ->
    yields (ReadLine l :: rest) (record :: rs).

(** Modelled from the spec: a sentinel frame is a data line whose trimmed
    payload is [[DONE]]. *)
Definition sentinel_line (l : string) : bool :=
  match trimPrefix dataPrefix l with
  | Some payload => String.eqb (trimSpace payload) sentinel
  | None => false
  end.

(** *** The sentinel ends the stream *)

Lemma receive_skip l rest st hdrs :
  trimPrefix dataPrefix l = None ->
  receive {| sr_input := ReadLine l :: rest; sr_state := st; sr_headers := hdrs |}
  = match st with
    | Open => receive {| sr_input := rest; sr_state := Open; sr_headers := hdrs |}
    | _ => receive {| sr_input := ReadLine l :: rest; sr_state := st;
                      sr_headers := hdrs |}
    end.
Proof.
  intros Hl. destruct st; try done.
  unfold receive; cbn [sr_state sr_input sr_headers next]. by rewrite Hl.
Qed.

Lemma receive_frame l payload record rest hdrs :
  trimPrefix dataPrefix l = Some payload ->
  String.eqb (trimSpace payload) sentinel = false ->
  decode (trimSpace payload) = Some record ->
  receive {| sr_input := ReadLine l :: rest; sr_state := Open; sr_headers := hdrs |}
  = ((record, None),
     {| sr_input := rest; sr_state := Open; sr_headers := hdrs |}).
Proof.
  intros Hl Hp Hd.
  unfold receive; cbn [sr_state sr_input sr_headers next].
  by rewrite Hl, Hp, Hd.
Qed.

Lemma receive_sentinel l rest hdrs :
  sentinel_line l = true ->
  receive {| sr_input := ReadLine l :: rest; sr_state := Open; sr_headers := hdrs |}
  = ((zeroResponse, Some EndOfStream),
     {| sr_input := rest; sr_state := Done; sr_headers := hdrs |}).
Proof.
  unfold sentinel_line. intros Hl.
  unfold receive; cbn [sr_state sr_input sr_headers next].
  destruct (trimPrefix dataPrefix l) as [payload|]; [|done]. by rewrite Hl.
Qed.

(** Once Done, every further pull reports the end of the stream and reads
    nothing. *)
Lemma reader_RecvN_Done n rest hdrs :
  reader_RecvN streamReaderMethods n
    {| sr_input := rest; sr_state := Done; sr_headers := hdrs |}
  = (replicate n (zeroResponse, Some EndOfStream),
     {| sr_input := rest; sr_state := Done; sr_headers := hdrs |}).
Proof.
  induction n as [|n IH]; [done|].
  cbn [reader_RecvN streamReaderMethods reader_Recv receive sr_state].
  cbn [reader_RecvN streamReaderMethods reader_Recv] in IH.
  by rewrite IH.
Qed.

Lemma reader_RecvN_sentinel pre rs l rest hdrs j :
  yields pre rs ->
  sentinel_line l = true ->
  reader_RecvN streamReaderMethods (length rs + S j)
    {| sr_input := (pre ++ ReadLine l :: rest)%list; sr_state := Open;
       sr_headers := hdrs |}
  = ((((fun r => (r, None)) <$> rs)
        ++ replicate (S j) (zeroResponse, Some EndOfStream))%list,
     {| sr_input := rest; sr_state := Done; sr_headers := hdrs |}).
Proof.
  intros Hy Hl. induction Hy as [|l0 more rs Hskip Hy IH
                                  |l0 payload record more rs Hp Hns Hd Hy IH].
  - cbn [length Nat.add app fmap list_fmap reader_RecvN].
    change (reader_Recv streamReaderMethods) with receive.
    rewrite (receive_sentinel _ _ _ Hl).
    by rewrite reader_RecvN_Done.
  - replace (length rs + S j) with (S (length rs + j)) in * by lia.
    cbn [reader_RecvN app] in *.
    change (reader_Recv streamReaderMethods) with receive in *.
    by rewrite (receive_skip _ _ _ _ Hskip).
  - cbn [length Nat.add app fmap list_fmap reader_RecvN].
    change (reader_Recv streamReaderMethods) with receive.
    rewrite (receive_frame _ _ _ _ _ Hp Hns Hd).
    by rewrite IH.
Qed.

(** Once closed, the reader stays closed and reports it on every pull. *)
Lemma streamReader_close_contract : reader_close_contract streamReaderMethods.
Proof.
  intros sr. split; [done|].
  intros n. cbn [streamReaderMethods reader_Close close snd].
  induction n as [|n IH]; [constructor|].
  cbn [reader_RecvN streamReaderMethods reader_Recv receive sr_state].
  cbn [streamReaderMethods reader_Recv] in IH.
  destruct (reader_RecvN _ n _) as [os st]; cbn [fst] in *.
  constructor; [by eexists | exact IH].
Qed.

(** So the wrapper around this reader meets the closed-stream contract. *)
Corollary wrapped_streamReader_close_contract :
  close_contract (NewChatCompletionStream (Some streamReaderMethods)).
Proof. apply close_contract_iff, streamReader_close_contract. Qed.

(** C6: let the lines before a sentinel frame decode to the records [rs]
    (any number of them, with any discarded lines in between).  Then the
    first [length rs] calls of [Recv] return those records in order, the
    next call returns the end-of-stream error with no record, whatever
    [decode] would make of the sentinel's payload, and so does every call
    after it; nothing behind the sentinel is read. *)
Theorem sentinel_yields_EndOfStream pre rs l rest hdrs j :
  yields pre rs ->
  sentinel_line l = true ->
  RecvN (NewChatCompletionStream (Some streamReaderMethods)) (length rs + S j)
    {| sr_input := (pre ++ ReadLine l :: rest)%list; sr_state := Open;
       sr_headers := hdrs |}
  = ((((fun r => Ret (r, None)) <$> rs)
        ++ replicate (S j) (Ret (zeroResponse, Some EndOfStream)))%list,
     {| sr_input := rest; sr_state := Done; sr_headers := hdrs |}).
Proof.
  intros Hy Hl. rewrite RecvN_Some.
  rewrite (reader_RecvN_sentinel pre rs l rest hdrs j Hy Hl); cbn [fst snd].
  f_equal. rewrite fmap_app, <- list_fmap_compose, fmap_replicate. done.
Qed.

End StreamReader.

(** ** The client's collaborators

    [c.newRequest], [c.fullURL], [c.sendRequest] and [sendRequestStream]
    are declared in other files.  The two calls below receive them as
    Section variables and keep a log of the calls they make to them, so
    that "no request was built" and "no request was sent" can be read off
    the log. *)

Inductive Call (Body HttpRequest : Type) : Type :=
| NewRequestCall (method url : string) (body : Body)
| SendCall (req : HttpRequest).
Arguments NewRequestCall {Body HttpRequest} method url body.
Arguments SendCall {Body HttpRequest} req.

(** The world a call runs in (network, heap), and the log of calls. *)
Record Wire (St Body HttpRequest : Type) : Type := {
  world : St;
  calls : list (Call Body HttpRequest)
}.
Arguments world {St Body HttpRequest} w.
Arguments calls {St Body HttpRequest} w.

Definition record_call {St Body HttpRequest : Type}
    (c : Call Body HttpRequest) (w : Wire St Body HttpRequest)
  : Wire St Body HttpRequest :=
  {| world := world w; calls := (calls w ++ [c])%list |}.

(** The requests sent, oldest first. *)
Definition sent {St Body HttpRequest : Type} (w : Wire St Body HttpRequest)
  : list HttpRequest :=
  omap (fun c => match c with SendCall req => Some req | _ => None end)
       (calls w).

(** [http.MethodPost] *)
Definition MethodPost : string := "POST".

Lemma sent_record_NewRequestCall {St Body HttpRequest : Type}
    (method url : string) (body : Body) (w : Wire St Body HttpRequest) :
  sent (record_call (NewRequestCall method url body) w) = sent w.
Proof.
  unfold sent, record_call; cbn [calls].
  rewrite omap_app; cbn. by rewrite app_nil_r.
Qed.

Lemma sent_record_SendCall {St Body HttpRequest : Type}
    (req : HttpRequest) (w : Wire St Body HttpRequest) :
  sent (record_call (SendCall req) w) = (sent w ++ [req])%list.
Proof. unfold sent, record_call; cbn [calls]. by rewrite omap_app. Qed.

Section CreateChatCompletionStream.

Context {FunctionCall ToolCall FinishReason ContentFilterResults
         PromptAnnotation Usage : Type}.
Context {Count ResetTime : Type}.
Context {St HttpRequest : Type}.

Local Abbreviation Reader :=
  (@ChatStreamReader FunctionCall ToolCall FinishReason ContentFilterResults
     PromptAnnotation Usage Count ResetTime St).
Local Abbreviation Stream :=
  (@ChatCompletionStream FunctionCall ToolCall FinishReason
     ContentFilterResults PromptAnnotation Usage Count ResetTime St).

(** [ChatCompletionRequest] is declared in another file.  This file reads
    its [Model] field and writes its [Stream] field; [RequestRest] stands
    for the fields it does not touch. *)
Context {RequestRest : Type}.

Record ChatCompletionRequest : Type := {
  Request_Model : string;
  Request_Stream : bool;
  Request_Rest : RequestRest
}.

(** [request.Stream = true] *)
Definition withStream (request : ChatCompletionRequest)
  : ChatCompletionRequest :=
  {| Request_Model := Request_Model request;
     Request_Stream := true;
     Request_Rest := Request_Rest request |}.

(** Declared in other files: the endpoint suffix, the table lookup
    [checkEndpointSupportsModel], [NewReasoningValidator().Validate],
    [c.fullURL(suffix, withModel(model))],
    [c.newRequest(ctx, method, url, withBody(body))], which returns a
    request and an error, and [sendRequestStream], which returns a reader
    and an error and acts on the world. *)
Variable chatCompletionsSuffix : string.
Variable checkEndpointSupportsModel : string -> string -> bool.
Variable Validate : ChatCompletionRequest -> option error.
Variable fullURL : string -> string -> string.
Variable newRequest :
  string -> string -> ChatCompletionRequest -> HttpRequest * option error.
Variable sendRequestStream :
  HttpRequest -> St -> (Reader * option error) * St.

Local Abbreviation Net := (Wire St ChatCompletionRequest HttpRequest).

Definition CreateChatCompletionStream
    (request : ChatCompletionRequest) (w : Net)
  : (option Stream * option error) * Net :=
  let urlSuffix := chatCompletionsSuffix in
  if negb (checkEndpointSupportsModel urlSuffix (Request_Model request))
  then ((None, Some ErrChatCompletionInvalidModel), w)
  else
    let request := withStream request in
    match Validate request with
    | Some err => ((None, Some err), w)
    | None =>
        let url := fullURL urlSuffix (Request_Model request) in
        let w1 := record_call (NewRequestCall MethodPost url request) w in
        match newRequest MethodPost url request with
        | (_, Some err) => ((None, Some err), w1)
        | (req, None) =>
            let w2 := record_call (SendCall req) w1 in
            match sendRequestStream req (world w2) with
            | ((_, Some err), st') =>
                ((None, Some err), {| world := st'; calls := calls w2 |})
            | ((resp, None), st') =>
                ((Some {| reader := Some resp |}, None),
                 {| world := st'; calls := calls w2 |})
            end
        end
    end.

(** The claim that the call does not validate the model name: whenever
    the reasoning validator accepts the request, the request the call
    builds is built without error and the transport answers that request
    without error, the call returns no error. *)
Definition no_model_validation : Prop :=
  forall (request : ChatCompletionRequest) (w : Net) (req : HttpRequest),
    Validate (withStream request) = None ->
    newRequest MethodPost
      (fullURL chatCompletionsSuffix (Request_Model request))
      (withStream request) = (req, None) ->
    (sendRequestStream req (world w)).1.2 = None ->
    (CreateChatCompletionStream request w).1.2 = None.

(** *** Properties of [CreateChatCompletionStream] *)

Lemma Create_unsupported request w :
  checkEndpointSupportsModel chatCompletionsSuffix (Request_Model request)
    = false ->
  CreateChatCompletionStream request w
  = ((None, Some ErrChatCompletionInvalidModel), w).
Proof. intros Hc. unfold CreateChatCompletionStream. by rewrite Hc. Qed.

(** A request that passes the guard and the validator is built from the
    caller's request with [Stream = true]; a build error ends the call
    there, in the world as it was. *)
Lemma Create_not_built request w req e :
  checkEndpointSupportsModel chatCompletionsSuffix (Request_Model request)
    = true ->
  Validate (withStream request) = None ->
  newRequest MethodPost
    (fullURL chatCompletionsSuffix (Request_Model request))
    (withStream request) = (req, Some e) ->
  CreateChatCompletionStream request w
  = ((None, Some e),
     record_call
       (NewRequestCall MethodPost
          (fullURL chatCompletionsSuffix (Request_Model request))
          (withStream request)) w).
Proof.
  intros Hc Hv Hn. unfold CreateChatCompletionStream.
  rewrite Hc, Hv; cbn [negb Request_Model withStream]. by rewrite Hn.
Qed.

(** A request that builds is handed to [sendRequestStream] in the world
    as it was; the call returns what the transport answered and leaves
    the world the transport left. *)
Lemma Create_sent request w req resp err st' :
  checkEndpointSupportsModel chatCompletionsSuffix (Request_Model request)
    = true ->
  Validate (withStream request) = None ->
  newRequest MethodPost
    (fullURL chatCompletionsSuffix (Request_Model request))
    (withStream request) = (req, None) ->
  sendRequestStream req (world w) = ((resp, err), st') ->
  CreateChatCompletionStream request w
  = ((match err with
      | None => Some (NewChatCompletionStream (Some resp))
      | Some _ => None
      end, err),
     {| world := st';
        calls := (calls w ++
                  [NewRequestCall MethodPost
                     (fullURL chatCompletionsSuffix (Request_Model request))
                     (withStream request);
                   SendCall req])%list |}).
Proof.
  intros Hc Hv Hn Hs. unfold CreateChatCompletionStream.
  rewrite Hc, Hv; cbn [negb Request_Model withStream]. rewrite Hn.
  cbn [record_call world calls]. rewrite Hs, <- app_assoc.
  by destruct err.
Qed.

(** C7 (as the code has it): the call does validate the model name.  A
    model that [checkEndpointSupportsModel] rejects for the
    chat-completions endpoint makes it return a nil stream and
    [ErrChatCompletionInvalidModel], with no request built or sent and
    the world as it was.  For a model the check accepts, whenever the
    validator accepts the request, the request the call builds is built
    without error and the transport answers that request without error,
    the call returns the stream around the reader the transport answered
    with, no error, and the world the transport left. *)
Theorem CreateChatCompletionStream_validates_model request w :
  (checkEndpointSupportsModel chatCompletionsSuffix (Request_Model request)
     = false ->
   CreateChatCompletionStream request w
   = ((None, Some ErrChatCompletionInvalidModel), w))
  /\ (checkEndpointSupportsModel chatCompletionsSuffix (Request_Model request)
       = true ->
      Validate (withStream request) = None ->
      forall req resp st',
        newRequest MethodPost
          (fullURL chatCompletionsSuffix (Request_Model request))
          (withStream request) = (req, None) ->
        sendRequestStream req (world w) = ((resp, None), st') ->
        CreateChatCompletionStream request w
        = ((Some (NewChatCompletionStream (Some resp)), None),
           {| world := st';
              calls := (calls w ++
                        [NewRequestCall MethodPost
                           (fullURL chatCompletionsSuffix
                              (Request_Model request))
                           (withStream request);
                         SendCall req])%list |})).
Proof.
  split; [apply Create_unsupported|].
  intros Hc Hv req resp st' Hn Hs.
  exact (Create_sent request w req resp None st' Hc Hv Hn Hs).
Qed.

(** C8: the request handed to the validator and to the request builder is
    the caller's with [Stream] set to [true], whatever the caller put
    there, and the request handed to the transport is the one built from
    it.  An unsupported model or a validator rejection returns a nil
    stream and the error, with nothing built or sent and the world as it
    was; a request that fails to build returns a nil stream and the
    error, the transport is not called and the world is as it was; a
    request that builds is handed to the transport once, in the world as
    it was, and the call returns what the transport answered. *)
Theorem CreateChatCompletionStream_sets_Stream request w :
  (Request_Stream (withStream request) = true
   /\ Request_Model (withStream request) = Request_Model request
   /\ Request_Rest (withStream request) = Request_Rest request)
  /\ (checkEndpointSupportsModel chatCompletionsSuffix (Request_Model request)
       = false ->
      CreateChatCompletionStream request w
      = ((None, Some ErrChatCompletionInvalidModel), w))
  /\ (checkEndpointSupportsModel chatCompletionsSuffix (Request_Model request)
       = true ->
      (forall e,
         Validate (withStream request) = Some e ->
         CreateChatCompletionStream request w = ((None, Some e), w))
      /\ (Validate (withStream request) = None ->
          forall req,
            (forall e,
               newRequest MethodPost
                 (fullURL chatCompletionsSuffix (Request_Model request))
                 (withStream request) = (req, Some e) ->
               CreateChatCompletionStream request w
               = ((None, Some e),
                  {| world := world w;
                     calls := (calls w ++
                               [NewRequestCall MethodPost
                                  (fullURL chatCompletionsSuffix
                                     (Request_Model request))
                                  (withStream request)])%list |})
               /\ sent (CreateChatCompletionStream request w).2 = sent w)
            /\ (newRequest MethodPost
                  (fullURL chatCompletionsSuffix (Request_Model request))
                  (withStream request) = (req, None) ->
                forall resp err st',
                  sendRequestStream req (world w) = ((resp, err), st') ->
                  CreateChatCompletionStream request w
                  = ((match err with
                      | None => Some (NewChatCompletionStream (Some resp))
                      | Some _ => None
                      end, err),
                     {| world := st';
                        calls := (calls w ++
                                  [NewRequestCall MethodPost
                                     (fullURL chatCompletionsSuffix
                                        (Request_Model request))
                                     (withStream request);
                                   SendCall req])%list |})
                  /\ sent (CreateChatCompletionStream request w).2
                     = (sent w ++ [req])%list))).
Proof.
  split; [done|]. split; [apply Create_unsupported|].
  intros Hc. split.
  - intros e Hv. unfold CreateChatCompletionStream.
    by rewrite Hc, Hv.
  - intros Hv req. split.
    + intros e Hn. rewrite (Create_not_built request w req e Hc Hv Hn).
      split; [done|]. apply sent_record_NewRequestCall.
    + intros Hn resp err st' Hs.
      rewrite (Create_sent request w req resp err st' Hc Hv Hn Hs).
      split; [done|].
      unfold sent; cbn [snd calls]. by rewrite omap_app.
Qed.

End CreateChatCompletionStream.

(** ** moderation.go *)

Definition ModerationOmniLatest : string := "omni-moderation-latest".
Definition ModerationOmni20240926 : string := "omni-moderation-2024-09-26".
Definition ModerationTextStable : string := "text-moderation-stable".
Definition ModerationTextLatest : string := "text-moderation-latest".
Definition ModerationText001 : string := "text-moderation-001".

(** [type ModerationItemType string] *)
Definition ModerationItemType : Type := string.
Definition ModerationItemTypeText : ModerationItemType := "text".
Definition ModerationItemTypeImageURL : ModerationItemType := "image_url".

(** [map[string]struct{}] *)
Definition validModerationModel : gmap string unit :=
  <[ModerationOmniLatest := tt]>
  (<[ModerationOmni20240926 := tt]>
  (<[ModerationTextStable := tt]>
  (<[ModerationTextLatest := tt]> ∅))).

(** The keys of [validModerationModel]. *)
Definition validModels : list string :=
  [ModerationOmniLatest; ModerationOmni20240926;
   ModerationTextStable; ModerationTextLatest].

Record ModerationRequest : Type := {
  ModerationRequest_Input : string;
  ModerationRequest_Model : string
}.

Record ModerationStrArrayRequest : Type := {
  ModerationStrArrayRequest_Input : list string;
  ModerationStrArrayRequest_Model : string
}.

Record ModerationImageURL : Type := {
  URL : string
}.

Record ModerationRequestItem : Type := {
  Item_Type : ModerationItemType;
  Item_ImageURL : ModerationImageURL;
  Item_Text : string
}.

Record ModerationArrayRequest : Type := {
  ModerationArrayRequest_Input : list ModerationRequestItem;
  ModerationArrayRequest_Model : string
}.

(** The [any] of [ModerationRequestV2.Input]: a nil interface, or a value
    of one of the three dynamic types the converters of this file store. *)
Inductive ModerationInput : Type :=
| InputNil
| InputString (s : string)
| InputStrings (l : list string)
| InputItems (l : list ModerationRequestItem).

Record ModerationRequestV2 : Type := {
  V2_Input : ModerationInput;
  V2_Model : string
}.

(** [ModerationRequestConverter]: the types with a [Convert] method. *)
Class ModerationRequestConverter (T : Type) : Type :=
  Convert : T -> ModerationRequestV2.

#[global] Instance ModerationRequest_Convert
  : ModerationRequestConverter ModerationRequest :=
  fun m =>
    {| V2_Input := InputString (ModerationRequest_Input m);
       V2_Model := ModerationRequest_Model m |}.

#[global] Instance ModerationStrArrayRequest_Convert
  : ModerationRequestConverter ModerationStrArrayRequest :=
  fun m =>
    {| V2_Input := InputStrings (ModerationStrArrayRequest_Input m);
       V2_Model := ModerationStrArrayRequest_Model m |}.

#[global] Instance ModerationArrayRequest_Convert
  : ModerationRequestConverter ModerationArrayRequest :=
  fun m =>
    {| V2_Input := InputItems (ModerationArrayRequest_Input m);
       V2_Model := ModerationArrayRequest_Model m |}.

Record ResultCategories : Type := {
  Categories_Hate : bool;
  Categories_HateThreatening : bool;
  Categories_Harassment : bool;
  Categories_HarassmentThreatening : bool;
  Categories_SelfHarm : bool;
  Categories_SelfHarmIntent : bool;
  Categories_SelfHarmInstructions : bool;
  Categories_Sexual : bool;
  Categories_SexualMinors : bool;
  Categories_Violence : bool;
  Categories_ViolenceGraphic : bool;
  Categories_Illicit : bool;
  Categories_IllicitViolent : bool
}.

Record ResultCategoryScores : Type := {
  Scores_Hate : PrimFloat.float;
  Scores_HateThreatening : PrimFloat.float;
  Scores_Harassment : PrimFloat.float;
  Scores_HarassmentThreatening : PrimFloat.float;
  Scores_SelfHarm : PrimFloat.float;
  Scores_SelfHarmIntent : PrimFloat.float;
  Scores_SelfHarmInstructions : PrimFloat.float;
  Scores_Sexual : PrimFloat.float;
  Scores_SexualMinors : PrimFloat.float;
  Scores_Violence : PrimFloat.float;
  Scores_ViolenceGraphic : PrimFloat.float;
  Scores_Illicit : PrimFloat.float;
  Scores_IllicitViolent : PrimFloat.float
}.

Record CategoryAppliedInputType : Type := {
  Applied_Harassment : list ModerationItemType;
  Applied_HarassmentThreatening : list ModerationItemType;
  Applied_Sexual : list ModerationItemType;
  Applied_Hate : list ModerationItemType;
  Applied_HateThreatening : list ModerationItemType;
  Applied_Illicit : list ModerationItemType;
  Applied_IllicitViolent : list ModerationItemType;
  Applied_SelfHarmIntent : list ModerationItemType;
  Applied_SelfHarmInstructions : list ModerationItemType;
  Applied_SelfHarm : list ModerationItemType;
  Applied_SexualMinors : list ModerationItemType;
  Applied_Violence : list ModerationItemType;
  Applied_ViolenceGraphic : list ModerationItemType
}.

Record Result : Type := {
  Categories : ResultCategories;
  CategoryScores : ResultCategoryScores;
  Flagged : bool;
  CategoryAppliedInputTypes : CategoryAppliedInputType
}.

Section Moderations.

(** The embedded [httpHeader] is declared in another file; so are the
    client's methods. *)
Context {httpHeader : Type} (httpHeader_zero : httpHeader).
Context {St HttpRequest : Type}.

Record ModerationResponse : Type := {
  Response_ID : string;
  Response_Model : string;
  Results : list Result;
  Response_httpHeader : httpHeader
}.

(** The zero value the named result [response] starts with. *)
Definition zeroModerationResponse : ModerationResponse :=
  {| Response_ID := ""; Response_Model := ""; Results := [];
     Response_httpHeader := httpHeader_zero |}.

Context {T : Type} {converter : ModerationRequestConverter T}.

(** [c.fullURL("/moderations", withModel(model))],
    [c.newRequest(ctx, method, url, withBody(&request))] and
    [c.sendRequest(req, &response)], which fills in the response it is
    given, returns an error and acts on the world. *)
Variable fullURL : string -> string -> string.
Variable newRequest : string -> string -> T -> HttpRequest * option error.
Variable sendRequest :
  HttpRequest -> ModerationResponse -> St
  -> (ModerationResponse * option error) * St.

Local Abbreviation Net := (Wire St T HttpRequest).

Definition Moderations (request : T) (w : Net)
  : (ModerationResponse * option error) * Net :=
  let response := zeroModerationResponse in
  let realRequest := Convert request in
  let ok := bool_decide (is_Some (validModerationModel !! V2_Model realRequest)) in
  if (0 <? String.length (V2_Model realRequest))%nat && negb ok
  then ((response, Some ErrModerationInvalidModel), w)
  else
    let url := fullURL "/moderations" (V2_Model realRequest) in
    let w1 := record_call (NewRequestCall MethodPost url request) w in
    match newRequest MethodPost url request with
    | (_, Some err) => ((response, Some err), w1)
    | (req, None) =>
        let w2 := record_call (SendCall req) w1 in
        let '((response, err), st') := sendRequest req response (world w2) in
        ((response, err), {| world := st'; calls := calls w2 |})
    end.

(** *** Properties of [Moderations] *)

Lemma validModerationModel_lookup (m : string) :
  is_Some (validModerationModel !! m) <-> m ∈ validModels.
Proof.
  rewrite <- elem_of_dom. unfold validModerationModel, validModels.
  rewrite !dom_insert_L, dom_empty_L. set_solver.
Qed.

Lemma length_pos_nonempty (m : string) :
  (0 <? String.length m)%nat = true <-> m <> "".
Proof. destruct m; cbn; [split; [done | congruence] | done]. Qed.

(** The condition of the guard, in words. *)
Lemma guard_spec (m : string) :
  (0 <? String.length m)%nat
    && negb (bool_decide (is_Some (validModerationModel !! m))) = true
  <-> m <> "" /\ m ∉ validModels.
Proof.
  rewrite andb_true_iff, negb_true_iff, bool_decide_eq_false.
  by rewrite length_pos_nonempty, validModerationModel_lookup.
Qed.

(** An accepted model goes on to the request builder. *)
Lemma Moderations_proceeds request w :
  ~ (V2_Model (Convert request) <> "" /\ V2_Model (Convert request) ∉ validModels) ->
  exists more,
    calls (Moderations request w).2
    = (calls w ++
       NewRequestCall MethodPost
         (fullURL "/moderations" (V2_Model (Convert request))) request
       :: more)%list.
Proof.
  intros Hok. rewrite <- guard_spec in Hok. apply not_true_is_false in Hok.
  unfold Moderations. rewrite Hok.
  set (url := fullURL _ _).
  destruct (newRequest MethodPost url request) as [req [e|]].
  - exists []. done.
  - exists [SendCall req].
    destruct (sendRequest req _ _) as [[resp e] st']; cbn [snd calls record_call].
    by rewrite <- app_assoc.
Qed.

(** A model the guard accepts: a build error ends the call with the zero
    response and that error, in the world as it was. *)
Lemma Moderations_not_built request w req e :
  ~ (V2_Model (Convert request) <> "" /\ V2_Model (Convert request) ∉ validModels) ->
  newRequest MethodPost
    (fullURL "/moderations" (V2_Model (Convert request))) request
    = (req, Some e) ->
  Moderations request w
  = ((zeroModerationResponse, Some e),
     {| world := world w;
        calls := (calls w ++
                  [NewRequestCall MethodPost
                     (fullURL "/moderations" (V2_Model (Convert request)))
                     request])%list |}).
Proof.
  intros Hok Hn. rewrite <- guard_spec in Hok. apply not_true_is_false in Hok.
  unfold Moderations. by rewrite Hok, Hn.
Qed.

(** A model the guard accepts: a request that builds is handed to
    [sendRequest] with the zero response, in the world as it was; the call
    returns the response and the error [sendRequest] gave and leaves the
    world it left. *)
Lemma Moderations_sent request w req response err st' :
  ~ (V2_Model (Convert request) <> "" /\ V2_Model (Convert request) ∉ validModels) ->
  newRequest MethodPost
    (fullURL "/moderations" (V2_Model (Convert request))) request
    = (req, None) ->
  sendRequest req zeroModerationResponse (world w) = ((response, err), st') ->
  Moderations request w
  = ((response, err),
     {| world := st';
        calls := (calls w ++
                  [NewRequestCall MethodPost
                     (fullURL "/moderations" (V2_Model (Convert request)))
                     request;
                   SendCall req])%list |}).
Proof.
  intros Hok Hn Hs. rewrite <- guard_spec in Hok. apply not_true_is_false in Hok.
  unfold Moderations. rewrite Hok, Hn. cbn [record_call world calls].
  by rewrite Hs, <- app_assoc.
Qed.

(** C9: when the converted request's [Model] is non-empty and is none of
    the four valid model names, [Moderations] returns the zero response
    and [ErrModerationInvalidModel], with no request built or sent and the
    world as it was.  In every other case, an empty [Model] included, the
    validation step accepts: the request is built from the caller's
    request for the [/moderations] URL of the converted model; a build
    error is returned as it is, the world as it was; a built request is
    handed to [sendRequest], and the call returns exactly the response
    and the error [sendRequest] gave.  So the call ends at its guard
    exactly in the first case. *)
Theorem Moderations_invalid_model_iff request w :
  validModels = ["omni-moderation-latest"; "omni-moderation-2024-09-26";
                 "text-moderation-stable"; "text-moderation-latest"]
  /\ (V2_Model (Convert request) <> ""
      /\ V2_Model (Convert request) ∉ validModels ->
      Moderations request w
      = ((zeroModerationResponse, Some ErrModerationInvalidModel), w))
  /\ (V2_Model (Convert request) = ""
      \/ V2_Model (Convert request) ∈ validModels ->
      forall req,
        (forall e,
           newRequest MethodPost
             (fullURL "/moderations" (V2_Model (Convert request))) request
             = (req, Some e) ->
           Moderations request w
           = ((zeroModerationResponse, Some e),
              {| world := world w;
                 calls := (calls w ++
                           [NewRequestCall MethodPost
                              (fullURL "/moderations"
                                 (V2_Model (Convert request)))
                              request])%list |}))
        /\ (newRequest MethodPost
              (fullURL "/moderations" (V2_Model (Convert request))) request
              = (req, None) ->
            forall response err st',
              sendRequest req zeroModerationResponse (world w)
                = ((response, err), st') ->
              Moderations request w
              = ((response, err),
                 {| world := st';
                    calls := (calls w ++
                              [NewRequestCall MethodPost
                                 (fullURL "/moderations"
                                    (V2_Model (Convert request)))
                                 request;
                               SendCall req])%list |})))
  /\ (Moderations request w
        = ((zeroModerationResponse, Some ErrModerationInvalidModel), w)
      <-> V2_Model (Convert request) <> ""
          /\ V2_Model (Convert request) ∉ validModels).
Proof.
  split; [done|]. split; [|split].
  - intros Hbad. apply guard_spec in Hbad.
    unfold Moderations. by rewrite Hbad.
  - intros Hok req.
    assert (Hnot : ~ (V2_Model (Convert request) <> ""
                      /\ V2_Model (Convert request) ∉ validModels)).
    { intros [Hne Hnotin]. destruct Hok as [Hempty|Hin]; [by apply Hne|].
      by apply Hnotin. }
    split.
    + intros e Hn. by apply (Moderations_not_built request w req e).
    + intros Hn response err st' Hs.
      by apply (Moderations_sent request w req response err st').
  - split.
    + intros Heq.
      destruct (decide (V2_Model (Convert request) <> ""
                        /\ V2_Model (Convert request) ∉ validModels))
        as [Hbad|Hok]; [done|].
      destruct (Moderations_proceeds request w Hok) as [more Hcalls].
      rewrite Heq in Hcalls; cbn [snd] in Hcalls.
      apply (f_equal length) in Hcalls.
      rewrite length_app in Hcalls; cbn [length] in Hcalls. lia.
    + intros Hbad. apply guard_spec in Hbad.
      unfold Moderations. by rewrite Hbad.
Qed.

End Moderations.

(** *** Properties of [Convert] *)

(** C10: for each of the three request types, [Convert] copies [Input]
    and [Model] into the [ModerationRequestV2] unchanged (the input under
    the dynamic type it had), so the request can be read back from the
    result: [Convert] is injective. *)
Theorem Convert_preserves_fields :
  (forall m : ModerationRequest,
     V2_Input (Convert m) = InputString (ModerationRequest_Input m)
     /\ V2_Model (Convert m) = ModerationRequest_Model m)
  /\ (forall m : ModerationStrArrayRequest,
       V2_Input (Convert m) = InputStrings (ModerationStrArrayRequest_Input m)
       /\ V2_Model (Convert m) = ModerationStrArrayRequest_Model m)
  /\ (forall m : ModerationArrayRequest,
       V2_Input (Convert m) = InputItems (ModerationArrayRequest_Input m)
       /\ V2_Model (Convert m) = ModerationArrayRequest_Model m)
  /\ (forall m1 m2 : ModerationRequest, Convert m1 = Convert m2 -> m1 = m2)
  /\ (forall m1 m2 : ModerationStrArrayRequest,
       Convert m1 = Convert m2 -> m1 = m2)
  /\ (forall m1 m2 : ModerationArrayRequest,
       Convert m1 = Convert m2 -> m1 = m2).
Proof.
  repeat split.
  - intros [i1 k1] [i2 k2] Heq. by injection Heq as -> ->.
  - intros [i1 k1] [i2 k2] Heq. by injection Heq as -> ->.
  - intros [i1 k1] [i2 k2] Heq. by injection Heq as -> ->.
Qed.

(** ** Test doubles and concrete runs

    The types declared elsewhere are instantiated with [unit]; counts and
    reset times are the raw header values. *)

Abbreviation Record0 :=
  (@ChatCompletionStreamResponse unit unit unit unit unit unit).
Abbreviation Reader0 St :=
  (@ChatStreamReader unit unit unit unit unit unit
     (list string) (list string) St).

Definition recordWithID (id : string) : Record0 :=
  {| ID := id; Object := "chat.completion.chunk"; Created := 0; Model := "";
     Choices := []; SystemFingerprint := ""; PromptAnnotations := [];
     PromptFilterResults := []; Usage_ := None |}.

(** A reader that plays back a script, as a test would inject: [Recv]
    hands out the next scripted pair, [Close] does nothing, and there are
    no accessors. *)
Definition scriptedReader : Reader0 (list (Record0 * option error)) :=
  {| reader_Recv := fun script =>
       match script with
       | res :: rest => (res, rest)
       | [] => ((zeroResponse, Some EndOfStream), [])
       end;
     reader_Close := fun script => (None, script);
     reader_Header := None;
     reader_GetRateLimitHeaders := None |}.

(** A reader that remembers that it was closed: the state is the script
    and the closed flag. *)
Definition closingReader : Reader0 (list (Record0 * option error) * bool) :=
  {| reader_Recv := fun '(script, closed) =>
       if (closed : bool)
       then ((zeroResponse, Some ClosedStreamError), (script, closed))
       else match script with
            | res :: rest => (res, (rest, closed))
            | [] => ((zeroResponse, Some EndOfStream), ([], closed))
            end;
     reader_Close := fun '(script, _) => (None, (script, true));
     reader_Header := None;
     reader_GetRateLimitHeaders := None |}.

Definition headerValues (h : http_Header) (key : string) : list string :=
  default [] (h !! key).

Definition parseHeaders (h : http_Header)
  : @RateLimitHeaders (list string) (list string) :=
  {| LimitRequests := headerValues h "x-ratelimit-limit-requests";
     LimitTokens := headerValues h "x-ratelimit-limit-tokens";
     RemainingRequests := headerValues h "x-ratelimit-remaining-requests";
     RemainingTokens := headerValues h "x-ratelimit-remaining-tokens";
     ResetRequests := headerValues h "x-ratelimit-reset-requests";
     ResetTokens := headerValues h "x-ratelimit-reset-tokens" |}.

(** A reader with both accessors: the state is the captured headers and
    the number of records read so far. *)
Definition meteredReader : Reader0 (http_Header * nat) :=
  {| reader_Recv := fun '(h, n) =>
       ((recordWithID "chunk", None), (h, S n));
     reader_Close := fun st => (None, st);
     reader_Header := Some (fun st => (st.1, st));
     reader_GetRateLimitHeaders := Some (fun st => (parseHeaders st.1, st)) |}.

Definition sampleHeaders : http_Header :=
  <["x-ratelimit-limit-requests" := ["60"]]>
  (<["x-ratelimit-reset-tokens" := ["6m0s"]]> ∅).

Lemma accessors_empty_when_absent_witness :
  Header (NewChatCompletionStream (Some scriptedReader)) [] = (Ret ∅, [])
  /\ GetRateLimitHeaders (String.concat ",")
       (NewChatCompletionStream (Some scriptedReader)) []
     = (Ret ∅, []).
Proof.
  destruct (accessors_empty_when_absent (String.concat ",")
              (NewChatCompletionStream (Some scriptedReader)) [])
    as [Hheader Hlimits].
  split; [apply Hheader | apply Hlimits]; reflexivity.
Defined.

Lemma GetRateLimitHeaders_six_keys_witness :
  exists m,
    GetRateLimitHeaders (String.concat ",")
      (NewChatCompletionStream (Some meteredReader)) (sampleHeaders, 0)
    = (Ret m, (sampleHeaders, 0))
    /\ dom m = rateLimitKeys
    /\ m !! "x-ratelimit-limit-requests" = Some (any_count ["60"])
    /\ m !! "x-ratelimit-reset-tokens" = Some (any_string "6m0s").
Proof.
  destruct (GetRateLimitHeaders_six_keys (String.concat ",") meteredReader
              (fun st => (parseHeaders st.1, st)) (sampleHeaders, 0) eq_refl)
    as (m & Hget & Hdom & _ & Hlr & _ & _ & _ & _ & Hrt).
  exists m. repeat split; assumption.
Defined.

Lemma GetRateLimitHeaders_stable_witness :
  (GetRateLimitHeaders (String.concat ",")
     (NewChatCompletionStream (Some meteredReader))
     (RecvN (NewChatCompletionStream (Some meteredReader)) 3
        (sampleHeaders, 0)).2).1
  = (GetRateLimitHeaders (String.concat ",")
       (NewChatCompletionStream (Some meteredReader))
       (RecvN (NewChatCompletionStream (Some meteredReader)) 0
          (sampleHeaders, 0)).2).1.
Proof.
  refine (proj1 (GetRateLimitHeaders_stable (String.concat ",") meteredReader
                   (fun st => (parseHeaders st.1, st)) fst parseHeaders
                   eq_refl _ _ 3 0 (sampleHeaders, 0))).
  - intros st. reflexivity.
  - intros [h n]. reflexivity.
Defined.

(** C5 does not hold of the wrapper as stated: around a reader whose
    [Close] does nothing, a [Recv] after [Close] returns the next buffered
    record and no error. *)
Lemma Recv_after_Close_returns_record :
  ~ close_contract (NewChatCompletionStream (Some scriptedReader)).
Proof.
  intros Hcontract.
  destruct (Hcontract [(recordWithID "buffered", None)]) as [_ Hrecv].
  specialize (Hrecv 1). cbn in Hrecv.
  apply Forall_cons_1 in Hrecv as [[resp Hresp] _].
  discriminate Hresp.
Qed.

Lemma closingReader_contract : reader_close_contract closingReader.
Proof.
  intros [script closed]; cbn. split; [done|].
  intros n. induction n as [|n IH]; cbn; [constructor|].
  destruct (reader_RecvN closingReader n (script, true)) as [os st] eqn:Hos.
  cbn in *. constructor; [by eexists | exact IH].
Qed.

Lemma Close_delegates_to_reader_witness :
  close_contract (NewChatCompletionStream (Some closingReader)).
Proof.
  exact (proj2 (proj2 (proj2
           (Close_delegates_to_reader closingReader)))
           closingReader_contract).
Defined.

(** A decoder for the runs below: a payload in braces decodes to a record
    carrying it as its id. *)
Definition decodeBraces (payload : string) : option Record0 :=
  match payload with
  | String "{" _ => Some (recordWithID payload)
  | _ => None
  end.

Definition sampleLines : list TransportRead :=
  [ReadLine "data: {1}"; ReadLine ": keep-alive"; ReadLine "";
   ReadLine "data:{2}  "].

Example trimSpace_sentinel : trimSpace "  [DONE] " = "[DONE]".
Proof. reflexivity. Qed.

Example next_skips_to_frame :
  next [ReadLine ": keep-alive"; ReadLine ""; ReadLine "data: {2} "; ReadLine "x"]
  = (RawFrame "{2}", [ReadLine "x"]).
Proof. reflexivity. Qed.

Example next_connection_ended :
  next [ReadLine "event: ping"]
  = (FrameFailure (TransportError "connection ended"), []).
Proof. reflexivity. Qed.

Lemma sentinel_yields_EndOfStream_witness :
  RecvN (NewChatCompletionStream
           (Some (streamReaderMethods decodeBraces parseHeaders)))
        (length [recordWithID "{1}"; recordWithID "{2}"] + 2)
        {| sr_input := (sampleLines ++
                        ReadLine "data: [DONE] " :: [ReadLine "data: {3}"])%list;
           sr_state := Open; sr_headers := sampleHeaders |}
  = ((((fun r => Ret (r, None)) <$> [recordWithID "{1}"; recordWithID "{2}"])
        ++ replicate 2 (Ret (zeroResponse, Some EndOfStream)))%list,
     {| sr_input := [ReadLine "data: {3}"]; sr_state := Done;
        sr_headers := sampleHeaders |}).
Proof.
  apply (sentinel_yields_EndOfStream decodeBraces parseHeaders sampleLines
           [recordWithID "{1}"; recordWithID "{2}"] "data: [DONE] "
           [ReadLine "data: {3}"] sampleHeaders 1).
  - apply (yields_frame _ "data: {1}" " {1}"); try reflexivity.
    apply yields_skip; [reflexivity|].
    apply yields_skip; [reflexivity|].
    apply (yields_frame _ "data:{2}  " "{2}  "); try reflexivity.
    apply yields_nil.
  - reflexivity.
Defined.

(** Collaborators for [CreateChatCompletionStream]: a built request is
    the triple it was built from; the rest of a chat request is its token
    limit. *)
Abbreviation ChatRequest0 := (@ChatCompletionRequest nat).
Abbreviation HttpRequest0 := (string * string * ChatRequest0)%type.
Abbreviation Script0 := (list (Record0 * option error)).

Definition sampleSuffix : string := "/chat/completions".

(** A stand-in for [checkEndpointSupportsModel], which is declared in
    another file: the chat-completions endpoint does not serve the
    completion-only models.  Only the chat-completions row of the table
    is given. *)
Definition completionOnlyModels : list string :=
  ["code-davinci-002"; "code-cushman-001"; "code-davinci-001";
   "text-davinci-003"; "text-davinci-002"; "text-curie-001";
   "text-babbage-001"; "text-ada-001"; "text-davinci-001";
   "davinci-instruct-beta"; "davinci"; "curie-instruct-beta";
   "curie"; "ada"; "babbage"].

Definition rejectLegacy (endpoint model : string) : bool :=
  negb (String.eqb endpoint "/chat/completions"
        && existsb (String.eqb model) completionOnlyModels).

Definition validateLimit (request : ChatRequest0) : option error :=
  if (4096 <? Request_Rest request)%nat
  then Some (OtherError "token limit") else None.

Definition joinURL (suffix model : string) : string := suffix.

Definition buildTriple (method url : string) (body : ChatRequest0)
  : HttpRequest0 * option error :=
  ((method, url, body),
   if String.eqb (Request_Model body) "" then Some (OtherError "no model")
   else None).

Definition buildAlways (method url : string) (body : ChatRequest0)
  : HttpRequest0 * option error :=
  ((method, url, body), None).

Definition answerScripted (req : HttpRequest0) (st : Script0)
  : (Reader0 Script0 * option error) * Script0 :=
  ((scriptedReader, None), st).

Definition idle : Wire Script0 ChatRequest0 HttpRequest0 :=
  {| world := []; calls := [] |}.

Definition chatRequest (model : string) (stream : bool) (limit : nat)
  : ChatRequest0 :=
  {| Request_Model := model; Request_Stream := stream; Request_Rest := limit |}.

(** C7 does not hold as stated: the validator accepts the request, the
    request builds and the transport would answer it without error, and
    the call still fails, because of the model name alone. *)
Lemma model_name_alone_fails :
  ~ no_model_validation sampleSuffix rejectLegacy validateLimit joinURL
      buildAlways answerScripted.
Proof.
  intros Hnone.
  specialize (Hnone (chatRequest "text-davinci-003" true 16) idle
                (MethodPost, sampleSuffix, chatRequest "text-davinci-003" true 16)
                eq_refl eq_refl eq_refl).
  discriminate Hnone.
Qed.

Lemma CreateChatCompletionStream_validates_model_witness :
  CreateChatCompletionStream sampleSuffix rejectLegacy validateLimit joinURL
    buildAlways answerScripted (chatRequest "text-davinci-003" true 16) idle
  = ((None, Some ErrChatCompletionInvalidModel), idle)
  /\ CreateChatCompletionStream sampleSuffix rejectLegacy validateLimit
       joinURL buildAlways answerScripted (chatRequest "gpt-4o" false 16) idle
     = ((Some (NewChatCompletionStream (Some scriptedReader)), None),
        {| world := [];
           calls := [NewRequestCall MethodPost sampleSuffix
                       (chatRequest "gpt-4o" true 16);
                     SendCall (MethodPost, sampleSuffix,
                               chatRequest "gpt-4o" true 16)] |}).
Proof.
  split.
  - apply (proj1 (CreateChatCompletionStream_validates_model sampleSuffix
                    rejectLegacy validateLimit joinURL buildAlways
                    answerScripted (chatRequest "text-davinci-003" true 16)
                    idle)).
    reflexivity.
  - apply (proj2 (CreateChatCompletionStream_validates_model sampleSuffix
                    rejectLegacy validateLimit joinURL buildAlways
                    answerScripted (chatRequest "gpt-4o" false 16) idle));
      reflexivity.
Defined.

Lemma CreateChatCompletionStream_sets_Stream_witness :
  CreateChatCompletionStream sampleSuffix rejectLegacy validateLimit joinURL
    buildTriple answerScripted (chatRequest "text-davinci-003" false 16) idle
  = ((None, Some ErrChatCompletionInvalidModel), idle)
  /\ CreateChatCompletionStream sampleSuffix rejectLegacy validateLimit joinURL
       buildTriple answerScripted (chatRequest "gpt-4o" false 5000) idle
     = ((None, Some (OtherError "token limit")), idle)
  /\ CreateChatCompletionStream sampleSuffix rejectLegacy validateLimit joinURL
       buildTriple answerScripted (chatRequest "" false 16) idle
     = ((None, Some (OtherError "no model")),
        {| world := [];
           calls := [NewRequestCall MethodPost sampleSuffix
                       (chatRequest "" true 16)] |})
  /\ (CreateChatCompletionStream sampleSuffix rejectLegacy validateLimit
        joinURL buildTriple answerScripted (chatRequest "gpt-4o" false 16) idle
      = ((Some (NewChatCompletionStream (Some scriptedReader)), None),
         {| world := [];
            calls := [NewRequestCall MethodPost sampleSuffix
                        (chatRequest "gpt-4o" true 16);
                      SendCall (MethodPost, sampleSuffix,
                                chatRequest "gpt-4o" true 16)] |})
      /\ sent (CreateChatCompletionStream sampleSuffix rejectLegacy
                 validateLimit joinURL buildTriple answerScripted
                 (chatRequest "gpt-4o" false 16) idle).2
         = [(MethodPost, sampleSuffix, chatRequest "gpt-4o" true 16)]).
Proof.
  split; [|split; [|split]].
  - destruct (CreateChatCompletionStream_sets_Stream sampleSuffix rejectLegacy
                validateLimit joinURL buildTriple answerScripted
                (chatRequest "text-davinci-003" false 16) idle)
      as (_ & Hunsupported & _).
    apply Hunsupported. reflexivity.
  - destruct (CreateChatCompletionStream_sets_Stream sampleSuffix rejectLegacy
                validateLimit joinURL buildTriple answerScripted
                (chatRequest "gpt-4o" false 5000) idle)
      as (_ & _ & Hsupported).
    destruct (Hsupported eq_refl) as [Hrejected _].
    apply Hrejected. reflexivity.
  - destruct (CreateChatCompletionStream_sets_Stream sampleSuffix rejectLegacy
                validateLimit joinURL buildTriple answerScripted
                (chatRequest "" false 16) idle)
      as (_ & _ & Hsupported).
    destruct (Hsupported eq_refl) as [_ Haccepted].
    destruct (Haccepted eq_refl (MethodPost, sampleSuffix, chatRequest "" true 16))
      as [Hbuild _].
    destruct (Hbuild (OtherError "no model") eq_refl) as [Hres _].
    exact Hres.
  - destruct (CreateChatCompletionStream_sets_Stream sampleSuffix rejectLegacy
                validateLimit joinURL buildTriple answerScripted
                (chatRequest "gpt-4o" false 16) idle)
      as (_ & _ & Hsupported).
    destruct (Hsupported eq_refl) as [_ Haccepted].
    destruct (Haccepted eq_refl
                (MethodPost, sampleSuffix, chatRequest "gpt-4o" true 16))
      as [_ Hbuilt].
    exact (Hbuilt eq_refl scriptedReader None [] eq_refl).
Defined.

(** Collaborators for [Moderations]. *)
Abbreviation ModerationHttp0 := (string * string * ModerationRequest)%type.
Abbreviation ModerationResponse0 := (@ModerationResponse http_Header).

Definition moderationURL (suffix model : string) : string := suffix.

Definition buildModeration (method url : string) (body : ModerationRequest)
  : ModerationHttp0 * option error :=
  ((method, url, body), None).

Definition answerModeration (req : ModerationHttp0)
    (response : ModerationResponse0) (st : nat)
  : (ModerationResponse0 * option error) * nat :=
  (({| Response_ID := "modr-1"; Response_Model := "text-moderation-007";
       Results := []; Response_httpHeader := sampleHeaders |}, None), S st).

Definition quiet : Wire nat ModerationRequest ModerationHttp0 :=
  {| world := 0; calls := [] |}.

Definition moderationRequest (input model : string) : ModerationRequest :=
  {| ModerationRequest_Input := input; ModerationRequest_Model := model |}.

Lemma Moderations_invalid_model_iff_witness :
  Moderations ∅ moderationURL buildModeration answerModeration
    (moderationRequest "some text" ModerationText001) quiet
  = ((zeroModerationResponse ∅, Some ErrModerationInvalidModel), quiet)
  /\ Moderations ∅ moderationURL buildModeration answerModeration
       (moderationRequest "some text" ModerationTextLatest) quiet
     = (({| Response_ID := "modr-1"; Response_Model := "text-moderation-007";
            Results := []; Response_httpHeader := sampleHeaders |}, None),
        {| world := 1;
           calls := [NewRequestCall MethodPost "/moderations"
                       (moderationRequest "some text" ModerationTextLatest);
                     SendCall (MethodPost, "/moderations",
                               moderationRequest "some text"
                                 ModerationTextLatest)] |})
  /\ Moderations ∅ moderationURL buildModeration answerModeration
       (moderationRequest "some text" "") quiet
     = (({| Response_ID := "modr-1"; Response_Model := "text-moderation-007";
            Results := []; Response_httpHeader := sampleHeaders |}, None),
        {| world := 1;
           calls := [NewRequestCall MethodPost "/moderations"
                       (moderationRequest "some text" "");
                     SendCall (MethodPost, "/moderations",
                               moderationRequest "some text" "")] |}).
Proof.
  split; [|split].
  - apply (proj1 (proj2 (Moderations_invalid_model_iff ∅ moderationURL
                    buildModeration answerModeration
                    (moderationRequest "some text" ModerationText001) quiet))).
    split; [discriminate|].
    intros Hin. repeat (apply elem_of_cons in Hin as [Hin|Hin]; [discriminate|]).
    by apply elem_of_nil in Hin.
  - assert (Hvalid :
      V2_Model (Convert (moderationRequest "some text" ModerationTextLatest))
      ∈ validModels) by (unfold validModels; set_solver).
    destruct (proj1 (proj2 (proj2 (Moderations_invalid_model_iff ∅ moderationURL
                    buildModeration answerModeration
                    (moderationRequest "some text" ModerationTextLatest) quiet)))
                (or_intror Hvalid)
                (MethodPost, "/moderations",
                 moderationRequest "some text" ModerationTextLatest))
      as [_ Hsent].
    exact (Hsent eq_refl _ None 1 eq_refl).
  - assert (Hempty :
      V2_Model (Convert (moderationRequest "some text" "")) = "")
      by reflexivity.
    destruct (proj1 (proj2 (proj2 (Moderations_invalid_model_iff ∅ moderationURL
                    buildModeration answerModeration
                    (moderationRequest "some text" "") quiet)))
                (or_introl Hempty)
                (MethodPost, "/moderations", moderationRequest "some text" ""))
      as [_ Hsent].
    exact (Hsent eq_refl _ None 1 eq_refl).
Defined.

Lemma Convert_preserves_fields_witness :
  V2_Input (Convert (moderationRequest "some text" ModerationTextStable))
    = InputString "some text"
  /\ V2_Model (Convert (moderationRequest "some text" ModerationTextStable))
    = ModerationTextStable
  /\ moderationRequest "some text" "" = moderationRequest "some text" "".
Proof.
  destruct Convert_preserves_fields as (Hstr & _ & _ & Hinj & _).
  destruct (Hstr (moderationRequest "some text" ModerationTextStable))
    as [Hinput Hmodel].
  split; [exact Hinput|]. split; [exact Hmodel|].
  apply Hinj. reflexivity.
Defined.

(** ** Sequences of calls on the wrapper *)

Section WrapperCalls.

Context {FunctionCall ToolCall FinishReason ContentFilterResults
         PromptAnnotation Usage : Type}.
Context {Count ResetTime : Type} (ResetTime_String : ResetTime -> string).
Context {St : Type}.

Local Abbreviation Response :=
  (@ChatCompletionStreamResponse FunctionCall ToolCall FinishReason
     ContentFilterResults PromptAnnotation Usage).
Local Abbreviation Reader :=
  (@ChatStreamReader FunctionCall ToolCall FinishReason ContentFilterResults
     PromptAnnotation Usage Count ResetTime St).
Local Abbreviation Stream :=
  (@ChatCompletionStream FunctionCall ToolCall FinishReason
     ContentFilterResults PromptAnnotation Usage Count ResetTime St).

(** The four methods of [ChatCompletionStream], and what each returns. *)
Inductive Op : Type :=
| OpRecv
| OpClose
| OpHeader
| OpGetRateLimitHeaders.

Inductive Answer : Type :=
| RecvAnswer (res : Response * option error)
| CloseAnswer (err : option error)
| HeaderAnswer (h : http_Header)
| RateLimitAnswer (m : gmap string (@any Count)).

Definition answer {A : Type} (f : A -> Answer) (o : outcome A)
  : outcome Answer :=
  match o with
  | Ret a => Ret (f a)
  | Panic => Panic
  end.

(** One method call on the wrapper. *)
Definition call (s : Stream) (op : Op) (st : St) : outcome Answer * St :=
  match op with
  | OpRecv => let '(o, st') := Recv s st in (answer RecvAnswer o, st')
  | OpClose => let '(o, st') := Close s st in (answer CloseAnswer o, st')
  | OpHeader => let '(o, st') := Header s st in (answer HeaderAnswer o, st')
  | OpGetRateLimitHeaders =>
      let '(o, st') := GetRateLimitHeaders ResetTime_String s st in
      (answer RateLimitAnswer o, st')
  end.

(** A sequence of method calls on the wrapper: each call with its result,
    in call order, and the state they leave. *)
Fixpoint runOps (s : Stream) (ops : list Op) (st : St)
  : list (Op * outcome Answer) * St :=
  match ops with
  | [] => ([], st)
  | op :: rest =>
      let '(o, st1) := call s op st in
      let '(os, st2) := runOps s rest st1 in
      ((op, o) :: os, st2)
  end.

(** The same call made on the reader itself: a method the reader lacks is
    not called. *)
Definition reader_call (r : Reader) (op : Op) (st : St) : Answer * St :=
  match op with
  | OpRecv => let '(res, st') := reader_Recv r st in (RecvAnswer res, st')
  | OpClose => let '(e, st') := reader_Close r st in (CloseAnswer e, st')
  | OpHeader =>
      match reader_Header r with
      | Some h => let '(hd, st') := h st in (HeaderAnswer hd, st')
      | None => (HeaderAnswer ∅, st)
      end
  | OpGetRateLimitHeaders =>
      match reader_GetRateLimitHeaders r with
      | Some h =>
          let '(headers, st') := h st in
          (RateLimitAnswer (rateLimitMap ResetTime_String headers), st')
      | None => (RateLimitAnswer ∅, st)
      end
  end.

Fixpoint reader_runOps (r : Reader) (ops : list Op) (st : St)
  : list (Op * Answer) * St :=
  match ops with
  | [] => ([], st)
  | op :: rest =>
      let '(a, st1) := reader_call r op st in
      let '(os, st2) := reader_runOps r rest st1 in
      ((op, a) :: os, st2)
  end.

Lemma call_Some (r : Reader) (op : Op) (st : St) :
  call (NewChatCompletionStream (Some r)) op st
  = (Ret (reader_call r op st).1, (reader_call r op st).2).
Proof.
  destruct op; cbn [call reader_call].
  - rewrite Recv_Some. by destruct (reader_Recv r st).
  - rewrite Close_Some. by destruct (reader_Close r st).
  - unfold Header; cbn [reader NewChatCompletionStream].
    destruct (reader_Header r) as [h|]; [by destruct (h st) | done].
  - unfold GetRateLimitHeaders; cbn [reader NewChatCompletionStream].
    destruct (reader_GetRateLimitHeaders r) as [h|]; [by destruct (h st) | done].
Qed.

(** X2: the map [GetRateLimitHeaders] returns is all or nothing: it has
    the six rate-limit keys when the reader has the accessor and is empty
    otherwise, so it is empty exactly when the accessor is missing. *)
Theorem GetRateLimitHeaders_all_or_nothing (s : Stream) (st : St) :
  exists m,
    (GetRateLimitHeaders ResetTime_String s st).1 = Ret m
    /\ (has_GetRateLimitHeaders s = true -> dom m = rateLimitKeys)
    /\ (m = ∅ <-> has_GetRateLimitHeaders s = false)
    /\ (size m = 0 \/ size m = 6).
Proof.
  unfold GetRateLimitHeaders, has_GetRateLimitHeaders.
  destruct (reader s) as [r|].
  - destruct (reader_GetRateLimitHeaders r) as [h|].
    + destruct (h st) as [headers st']. eexists; split; [done|].
      split; [intros _; apply rateLimitMap_dom|].
      split; [|right; apply rateLimitMap_size].
      split; [|done]. intros Hempty.
      pose proof (rateLimitMap_size ResetTime_String headers) as Hsize.
      rewrite Hempty, map_size_empty in Hsize. lia.
    + exists ∅. repeat split; try done. by left.
  - exists ∅. repeat split; try done. by left.
Qed.

(** X3: for any sequence of calls on a stream built around a reader, each
    result is what the same call made on the reader itself gives at that
    point (the empty value for an accessor the reader lacks), and the
    reader ends in the same state: the wrapper adds no state, no
    buffering and no panic of its own. *)
Theorem runOps_is_reader_runOps (r : Reader) (ops : list Op) (st : St) :
  runOps (NewChatCompletionStream (Some r)) ops st
  = ((fun oa => (oa.1, Ret oa.2)) <$> (reader_runOps r ops st).1,
     (reader_runOps r ops st).2).
Proof.
  revert st. induction ops as [|op ops IH]; intros st; [done|].
  cbn [runOps reader_runOps]. rewrite call_Some.
  destruct (reader_call r op st) as [a st1]; cbn [fst snd].
  rewrite IH. by destruct (reader_runOps r ops st1).
Qed.

End WrapperCalls.

(** ** Further properties of [CreateChatCompletionStream] *)

Section CreateOutcomes.

Context {FunctionCall ToolCall FinishReason ContentFilterResults
         PromptAnnotation Usage : Type}.
Context {Count ResetTime : Type}.
Context {St HttpRequest RequestRest : Type}.

Local Abbreviation Reader :=
  (@ChatStreamReader FunctionCall ToolCall FinishReason ContentFilterResults
     PromptAnnotation Usage Count ResetTime St).
Local Abbreviation Request := (@ChatCompletionRequest RequestRest).
Local Abbreviation Net := (Wire St Request HttpRequest).

Variable chatCompletionsSuffix : string.
Variable checkEndpointSupportsModel : string -> string -> bool.
Variable Validate : Request -> option error.
Variable fullURL : string -> string -> string.
Variable newRequest : string -> string -> Request -> HttpRequest * option error.
Variable sendRequestStream : HttpRequest -> St -> (Reader * option error) * St.

Local Abbreviation Create :=
  (CreateChatCompletionStream chatCompletionsSuffix checkEndpointSupportsModel
     Validate fullURL newRequest sendRequestStream).

(** The URL the call builds its request for. *)
Definition chatURL (request : Request) : string :=
  fullURL chatCompletionsSuffix (Request_Model request).

(** The ways the call can end, with what it returns and what it leaves. *)
Inductive CreateExit (request : Request) (w : Net)
  : (option ChatCompletionStream * option error) * Net -> Prop :=
| ExitUnsupported :
    checkEndpointSupportsModel chatCompletionsSuffix (Request_Model request)
      = false ->
    CreateExit request w ((None, Some ErrChatCompletionInvalidModel), w)
| ExitInvalid e :
    Validate (withStream request) = Some e ->
    CreateExit request w ((None, Some e), w)
| ExitNotBuilt req e :
    newRequest MethodPost (chatURL request) (withStream request)
      = (req, Some e) ->
    CreateExit request w
      ((None, Some e),
       record_call
         (NewRequestCall MethodPost (chatURL request) (withStream request)) w)
| ExitNotSent req resp e st' :
    newRequest MethodPost (chatURL request) (withStream request)
      = (req, None) ->
    sendRequestStream req (world w) = ((resp, Some e), st') ->
    CreateExit request w
      ((None, Some e),
       {| world := st';
          calls := (calls w ++
                    [NewRequestCall MethodPost (chatURL request)
                       (withStream request); SendCall req])%list |})
| ExitStream req resp st' :
    newRequest MethodPost (chatURL request) (withStream request)
      = (req, None) ->
    sendRequestStream req (world w) = ((resp, None), st') ->
    CreateExit request w
      ((Some (NewChatCompletionStream (Some resp)), None),
       {| world := st';
          calls := (calls w ++
                    [NewRequestCall MethodPost (chatURL request)
                       (withStream request); SendCall req])%list |}).

(** Every call ends in one of these ways. *)
Lemma Create_exits (request : Request) (w : Net) :
  CreateExit request w (Create request w).
Proof.
  unfold CreateChatCompletionStream.
  destruct (checkEndpointSupportsModel _ _) eqn:Hc; cbn [negb];
    [|by apply ExitUnsupported].
  destruct (Validate (withStream request)) as [e|] eqn:Hv;
    [by apply ExitInvalid|].
  cbn [Request_Model withStream]. fold (chatURL request).
  destruct (newRequest MethodPost (chatURL request) (withStream request))
    as [req [e|]] eqn:Hn; [by eapply ExitNotBuilt|].
  cbn [record_call world calls].
  destruct (sendRequestStream req (world w)) as [[resp [e|]] st'] eqn:Hs;
    rewrite <- app_assoc; cbn [app].
  - by eapply ExitNotSent.
  - by eapply ExitStream.
Qed.

(** X5: the caller's [Stream] flag has no effect: two requests that
    differ at most in it get the same result, the same request built and
    sent, and the same effect on the world. *)
Theorem caller_Stream_flag_ignored (request1 request2 : Request) (w : Net) :
  Request_Model request1 = Request_Model request2 ->
  Request_Rest request1 = Request_Rest request2 ->
  CreateChatCompletionStream chatCompletionsSuffix checkEndpointSupportsModel
    Validate fullURL newRequest sendRequestStream request1 w
  = CreateChatCompletionStream chatCompletionsSuffix checkEndpointSupportsModel
      Validate fullURL newRequest sendRequestStream request2 w.
Proof.
  destruct request1 as [model1 flag1 rest1], request2 as [model2 flag2 rest2].
  cbn [Request_Model Request_Rest]. intros -> ->.
  unfold CreateChatCompletionStream, withStream.
  cbn [Request_Model Request_Rest]. done.
Qed.

(** X6: the call returns a stream or an error, never both and never
    neither: the stream is nil exactly when the error is not. *)
Theorem stream_xor_error (request : Request) (w : Net) :
  ((CreateChatCompletionStream chatCompletionsSuffix
      checkEndpointSupportsModel Validate fullURL newRequest
      sendRequestStream request w).1.1 = None
   /\ is_Some (Create request w).1.2)
  \/ (is_Some (Create request w).1.1 /\ (Create request w).1.2 = None).
Proof.
  destruct (Create_exits request w); cbn [fst snd]; eauto.
Qed.



(** X8: a stream the call returns is built around the reader the
    transport answered with, for the request built from the caller's with
    [Stream = true]; its [Recv] and [Close] are that reader's and do not
    panic. *)
Theorem returned_stream_wraps_transport_reader
    (request : Request) (w : Net) (s : ChatCompletionStream) :
  (Create request w).1.1 = Some s ->
  exists req resp,
    newRequest MethodPost (chatURL request) (withStream request) = (req, None)
    /\ sendRequestStream req (world w)
       = ((resp, None), world (Create request w).2)
    /\ s = NewChatCompletionStream (Some resp)
    /\ (forall st, Recv s st = (Ret (reader_Recv resp st).1,
                                (reader_Recv resp st).2))
    /\ (forall st, Close s st = (Ret (reader_Close resp st).1,
                                 (reader_Close resp st).2)).
Proof.
  intros Hs.
  destruct (Create_exits request w) as [Hc|e Hv|req e Hn|req resp e st' Hn Hsend
                                        |req resp st' Hn Hsend];
    cbn [fst snd] in Hs; try discriminate Hs.
  injection Hs as <-. exists req, resp. cbn [snd world].
  repeat split; try done.
  - intros st. apply Recv_Some.
  - intros st. apply Close_Some.
Qed.

(** X9: an error the call returns is [ErrChatCompletionInvalidModel] from
    its own guard, or the very error the reasoning validator, the request
    builder or the transport returned, in that order of precedence; the
    call makes up, wraps and swallows none. *)
Theorem error_provenance (request : Request) (w : Net) (e : error) :
  (Create request w).1.2 = Some e ->
  (checkEndpointSupportsModel chatCompletionsSuffix (Request_Model request)
     = false
   /\ e = ErrChatCompletionInvalidModel)
  \/ (checkEndpointSupportsModel chatCompletionsSuffix (Request_Model request)
        = true
      /\ (Validate (withStream request) = Some e
          \/ (Validate (withStream request) = None
              /\ ((newRequest MethodPost (chatURL request)
                     (withStream request)).2 = Some e
                  \/ exists req,
                       newRequest MethodPost (chatURL request)
                         (withStream request) = (req, None)
                       /\ (sendRequestStream req (world w)).1.2 = Some e)))).
Proof.
  unfold CreateChatCompletionStream.
  destruct (checkEndpointSupportsModel _ _) eqn:Hc; cbn [negb fst snd].
  - intros He. right. split; [done|].
    destruct (Validate (withStream request)) as [e'|] eqn:Hv;
      cbn [fst snd] in He; [left; congruence|].
    right. split; [done|]. revert He.
    cbn [Request_Model withStream]. fold (chatURL request).
    destruct (newRequest MethodPost (chatURL request) (withStream request))
      as [req [e'|]] eqn:Hn; cbn [fst snd record_call world].
    + intros He. left. congruence.
    + destruct (sendRequestStream req (world w)) as [[resp [e'|]] st'] eqn:Hs;
        cbn [fst snd]; intros He; [|discriminate He].
      right. exists req. split; [done|]. rewrite Hs; cbn [fst snd]. congruence.
  - intros He. left. split; [done|]. congruence.
Qed.

End CreateOutcomes.

(** ** Further properties of [Moderations] and [Convert] *)

Section ModerationOutcomes.

Context {httpHeader : Type} (httpHeader_zero : httpHeader).
Context {St HttpRequest : Type}.
Context {T : Type} {converter : ModerationRequestConverter T}.

Local Abbreviation ModResponse := (@ModerationResponse httpHeader).
Local Abbreviation Net := (Wire St T HttpRequest).

Variable fullURL : string -> string -> string.
Variable newRequest : string -> string -> T -> HttpRequest * option error.
Variable sendRequest :
  HttpRequest -> ModResponse -> St -> (ModResponse * option error) * St.

Local Abbreviation Moderate :=
  (Moderations httpHeader_zero fullURL newRequest sendRequest).
Local Abbreviation zeroMod := (zeroModerationResponse httpHeader_zero).

(** The URL the call builds its request for. *)
Definition moderationsURL (request : T) : string :=
  fullURL "/moderations" (V2_Model (Convert request)).

(** The guard of [Moderations] on the converted model. *)
Definition rejectsModel (model : string) : bool :=
  (0 <? String.length model)%nat
  && negb (bool_decide (is_Some (validModerationModel !! model))).

(** The ways the call can end, with what it returns and what it leaves. *)
Inductive ModerationsExit (request : T) (w : Net)
  : (ModResponse * option error) * Net -> Prop :=
| ExitInvalidModel :
    rejectsModel (V2_Model (Convert request)) = true ->
    ModerationsExit request w ((zeroMod, Some ErrModerationInvalidModel), w)
| ExitRequestNotBuilt req e :
    rejectsModel (V2_Model (Convert request)) = false ->
    newRequest MethodPost (moderationsURL request) request = (req, Some e) ->
    ModerationsExit request w
      ((zeroMod, Some e),
       record_call (NewRequestCall MethodPost (moderationsURL request) request)
         w)
| ExitSent req response err st' :
    rejectsModel (V2_Model (Convert request)) = false ->
    newRequest MethodPost (moderationsURL request) request = (req, None) ->
    sendRequest req zeroMod (world w) = ((response, err), st') ->
    ModerationsExit request w
      ((response, err),
       {| world := st';
          calls := (calls w ++
                    [NewRequestCall MethodPost (moderationsURL request) request;
                     SendCall req])%list |}).

(** Every call ends in one of these ways. *)
Lemma Moderations_exits (request : T) (w : Net) :
  ModerationsExit request w (Moderate request w).
Proof.
  unfold Moderations. fold (rejectsModel (V2_Model (Convert request))).
  destruct (rejectsModel _) eqn:Hr; [by apply ExitInvalidModel|].
  fold (moderationsURL request).
  destruct (newRequest MethodPost (moderationsURL request) request)
    as [req [e|]] eqn:Hn; [by eapply ExitRequestNotBuilt|].
  cbn [record_call world calls].
  destruct (sendRequest req zeroMod (world w)) as [[response err] st'] eqn:Hs.
  rewrite <- app_assoc; cbn [app]. by eapply ExitSent.
Qed.

(** X10: one call sends at most one request, the one built from the
    caller's own request value, and keeps what was logged before.  If it
    sends nothing it returns the zero response and an error and leaves
    the world alone; if it sends, it returns exactly the response and the
    error [sendRequest] gave for the zero response it was handed. *)
Theorem Moderations_sends_at_most_once (request : T) (w : Net) :
  exists sends : list HttpRequest,
    sent (Moderate request w).2 = (sent w ++ sends)%list
    /\ length sends <= 1
    /\ (exists new, calls (Moderate request w).2 = (calls w ++ new)%list)
    /\ (sends = [] ->
        (Moderate request w).1.1 = zeroMod
        /\ is_Some (Moderate request w).1.2
        /\ world (Moderate request w).2 = world w)
    /\ (forall req, req ∈ sends ->
        newRequest MethodPost (moderationsURL request) request = (req, None)
        /\ (Moderate request w).1 = (sendRequest req zeroMod (world w)).1
        /\ world (Moderate request w).2
           = (sendRequest req zeroMod (world w)).2).
Proof.
  destruct (Moderations_exits request w)
    as [Hr|req e Hr Hn|req response err st' Hr Hn Hs]; cbn [fst snd].
  - exists []. rewrite app_nil_r.
    split; [done|]. split; [cbn; lia|].
    split; [exists []; by rewrite app_nil_r|].
    split; [by eauto|].
    intros req Hin. by apply elem_of_nil in Hin.
  - exists []. rewrite sent_record_NewRequestCall, app_nil_r.
    split; [done|]. split; [cbn; lia|].
    split; [by eexists|].
    split; [by eauto|].
    intros r Hin. by apply elem_of_nil in Hin.
  - exists [req]. unfold sent; cbn [calls]; rewrite omap_app.
    split; [done|]. split; [cbn; lia|].
    split; [by eexists|].
    split; [discriminate|].
    intros r Hin. apply list_elem_of_singleton in Hin. subst r.
    by rewrite Hs.
Qed.

(** X11: an error the call returns is [ErrModerationInvalidModel] from
    its own guard, or the very error the request builder or [sendRequest]
    returned; a nil error comes only from [sendRequest]. *)
Theorem Moderations_error_provenance (request : T) (w : Net) :
  (rejectsModel (V2_Model (Convert request)) = true
   /\ (Moderate request w).1.2 = Some ErrModerationInvalidModel)
  \/ (rejectsModel (V2_Model (Convert request)) = false
      /\ is_Some (newRequest MethodPost (moderationsURL request) request).2
      /\ (Moderate request w).1.2
         = (newRequest MethodPost (moderationsURL request) request).2)
  \/ (rejectsModel (V2_Model (Convert request)) = false
      /\ (newRequest MethodPost (moderationsURL request) request).2 = None
      /\ (Moderate request w).1.2
         = (sendRequest
              (newRequest MethodPost (moderationsURL request) request).1
              zeroMod (world w)).1.2).
Proof.
  destruct (Moderations_exits request w)
    as [Hr|req e Hr Hn|req response err st' Hr Hn Hs]; cbn [fst snd].
  - by left.
  - right; left. rewrite Hn; cbn [snd]. eauto.
  - right; right. rewrite Hn; cbn [fst snd]. by rewrite Hs.
Qed.

(** The guard in words, and what it means for the call. *)
Lemma rejectsModel_spec (model : string) :
  rejectsModel model = true <-> model <> "" /\ model ∉ validModels.
Proof. apply (guard_spec fullURL newRequest). Qed.

Lemma Moderations_rejected_iff (request : T) (w : Net) :
  Moderate request w = ((zeroMod, Some ErrModerationInvalidModel), w)
  <-> rejectsModel (V2_Model (Convert request)) = true.
Proof.
  split.
  - intros Heq.
    destruct (Moderations_exits request w)
      as [Hr|req e Hr Hn|req response err st' Hr Hn Hs]; [done| |];
      apply (f_equal (fun res => length (calls res.2))) in Heq;
      cbn [snd calls record_call] in Heq;
      rewrite length_app in Heq; cbn [length] in Heq; lia.
  - intros Hr. unfold Moderations.
    fold (rejectsModel (V2_Model (Convert request))). by rewrite Hr.
Qed.

End ModerationOutcomes.

Section TwoRequests.

Context {httpHeader : Type} (httpHeader_zero : httpHeader).
Context {St1 HttpRequest1 T1 : Type} {converter1 : ModerationRequestConverter T1}.
Context {St2 HttpRequest2 T2 : Type} {converter2 : ModerationRequestConverter T2}.

Variable fullURL1 : string -> string -> string.
Variable newRequest1 : string -> string -> T1 -> HttpRequest1 * option error.
Variable sendRequest1 :
  HttpRequest1 -> @ModerationResponse httpHeader -> St1
  -> (@ModerationResponse httpHeader * option error) * St1.
Variable fullURL2 : string -> string -> string.
Variable newRequest2 : string -> string -> T2 -> HttpRequest2 * option error.
Variable sendRequest2 :
  HttpRequest2 -> @ModerationResponse httpHeader -> St2
  -> (@ModerationResponse httpHeader * option error) * St2.

(** X12: whether [Moderations] turns a request away at its guard depends
    on the converted [Model] alone: two requests that convert to the same
    [Model], of whatever request types, with whatever inputs, clients and
    logs, are both turned away with [ErrModerationInvalidModel] and
    nothing built, or both handed to the request builder. *)
Theorem guard_depends_on_Model_only
    (request1 : T1) (w1 : Wire St1 T1 HttpRequest1)
    (request2 : T2) (w2 : Wire St2 T2 HttpRequest2) :
  V2_Model (Convert request1) = V2_Model (Convert request2) ->
  (Moderations httpHeader_zero fullURL1 newRequest1 sendRequest1 request1 w1
   = ((zeroModerationResponse httpHeader_zero,
       Some ErrModerationInvalidModel), w1)
   <-> Moderations httpHeader_zero fullURL2 newRequest2 sendRequest2 request2 w2
       = ((zeroModerationResponse httpHeader_zero,
           Some ErrModerationInvalidModel), w2)).
Proof.
  intros Hmodel. rewrite !Moderations_rejected_iff. by rewrite Hmodel.
Qed.

End TwoRequests.

(** ** Concrete runs of the further properties *)

Abbreviation Create0 :=
  (CreateChatCompletionStream sampleSuffix rejectLegacy validateLimit joinURL
     buildTriple answerScripted).
Abbreviation Moderate0 :=
  (Moderations (∅ : http_Header) moderationURL buildModeration
     answerModeration).

Lemma GetRateLimitHeaders_all_or_nothing_witness :
  exists m,
    (GetRateLimitHeaders (String.concat ",")
       (NewChatCompletionStream (Some meteredReader)) (sampleHeaders, 0)).1
    = Ret m
    /\ dom m = rateLimitKeys
    /\ m <> ∅.
Proof.
  destruct (GetRateLimitHeaders_all_or_nothing (String.concat ",")
              (NewChatCompletionStream (Some meteredReader)) (sampleHeaders, 0))
    as (m & Hm & Hdom & Hempty & _).
  exists m. split; [exact Hm|]. split; [apply Hdom; reflexivity|].
  intros He. apply Hempty in He. discriminate He.
Defined.

Lemma caller_Stream_flag_ignored_witness :
  Create0 (chatRequest "gpt-4o" false 16) idle
  = Create0 (chatRequest "gpt-4o" true 16) idle.
Proof.
  apply (caller_Stream_flag_ignored sampleSuffix rejectLegacy validateLimit
           joinURL buildTriple answerScripted
           (chatRequest "gpt-4o" false 16) (chatRequest "gpt-4o" true 16) idle);
    reflexivity.
Defined.


Lemma returned_stream_wraps_transport_reader_witness :
  exists req resp,
    buildTriple MethodPost
      (chatURL sampleSuffix joinURL (chatRequest "gpt-4o" false 16))
      (withStream (chatRequest "gpt-4o" false 16))
    = (req, None)
    /\ answerScripted req (world idle)
       = ((resp, None),
          world (Create0 (chatRequest "gpt-4o" false 16) idle).2)
    /\ NewChatCompletionStream (Some scriptedReader)
       = NewChatCompletionStream (Some resp).
Proof.
  destruct (returned_stream_wraps_transport_reader sampleSuffix rejectLegacy
              validateLimit joinURL buildTriple answerScripted
              (chatRequest "gpt-4o" false 16) idle
              (NewChatCompletionStream (Some scriptedReader)) eq_refl)
    as (req & resp & Hbuilt & Hsent & Hs & _).
  exists req, resp. split; [exact Hbuilt|]. split; [exact Hsent | exact Hs].
Defined.

Lemma error_provenance_witness :
  rejectLegacy sampleSuffix "gpt-4o" = true
  /\ validateLimit (withStream (chatRequest "gpt-4o" false 5000))
     = Some (OtherError "token limit").
Proof.
  destruct (error_provenance sampleSuffix rejectLegacy validateLimit joinURL
              buildTriple answerScripted (chatRequest "gpt-4o" false 5000) idle
              (OtherError "token limit") eq_refl)
    as [[Hc _]|[Hc [Hv|[Hv _]]]].
  - discriminate Hc.
  - split; [exact Hc | exact Hv].
  - discriminate Hv.
Defined.

Lemma Moderations_sends_at_most_once_witness :
  (Moderate0 (moderationRequest "some text" ModerationText001) quiet).1.1
    = zeroModerationResponse ∅
  /\ is_Some
       (Moderate0 (moderationRequest "some text" ModerationText001) quiet).1.2
  /\ world (Moderate0 (moderationRequest "some text" ModerationText001)
              quiet).2
     = world quiet.
Proof.
  destruct (Moderations_sends_at_most_once ∅ moderationURL buildModeration
              answerModeration
              (moderationRequest "some text" ModerationText001) quiet)
    as (sends & Hsent & _ & _ & Hnone & _).
  apply Hnone. vm_compute in Hsent. by symmetry.
Defined.

(** Collaborators for [Moderations] on a list of strings. *)
Abbreviation ModerationListHttp0 :=
  (string * string * ModerationStrArrayRequest)%type.

Definition buildModerationList (method url : string)
    (body : ModerationStrArrayRequest)
  : ModerationListHttp0 * option error :=
  ((method, url, body), None).

Definition answerModerationList (req : ModerationListHttp0)
    (response : ModerationResponse0) (st : unit)
  : (ModerationResponse0 * option error) * unit :=
  ((response, Some (TransportError "connection reset")), st).

Definition quietList : Wire unit ModerationStrArrayRequest ModerationListHttp0 :=
  {| world := tt; calls := [] |}.

Lemma guard_depends_on_Model_only_witness :
  Moderations (∅ : http_Header) moderationURL buildModerationList
    answerModerationList
    {| ModerationStrArrayRequest_Input := [];
       ModerationStrArrayRequest_Model := ModerationText001 |} quietList
  = ((zeroModerationResponse ∅, Some ErrModerationInvalidModel), quietList).
Proof.
  assert (Hmodel :
    V2_Model (Convert (moderationRequest "some text" ModerationText001))
    = V2_Model (Convert {| ModerationStrArrayRequest_Input := [];
                           ModerationStrArrayRequest_Model := ModerationText001 |}))
    by reflexivity.
  apply (proj1 (guard_depends_on_Model_only ∅
                  moderationURL buildModeration answerModeration
                  moderationURL buildModerationList answerModerationList
                  (moderationRequest "some text" ModerationText001) quiet
                  {| ModerationStrArrayRequest_Input := [];
                     ModerationStrArrayRequest_Model := ModerationText001 |}
                  quietList Hmodel)).
  by vm_compute.
Defined.

(** ** What the rate-limit map keeps *)

Section RateLimitMap.

Context {Count ResetTime : Type} (ResetTime_String : ResetTime -> string).

Local Abbreviation Snapshot := (@RateLimitHeaders Count ResetTime).

(** What the map keeps of a snapshot: the four counts, and the two reset
    times as strings. *)
Definition kept (headers : Snapshot)
  : Count * Count * Count * Count * string * string :=
  (LimitRequests headers, LimitTokens headers,
   RemainingRequests headers, RemainingTokens headers,
   ResetTime_String (ResetRequests headers),
   ResetTime_String (ResetTokens headers)).

Lemma any_count_inj (a b : Count) :
  Some (any_count a) = Some (@any_count Count b) -> a = b.
Proof. by intros [= ->]. Qed.

Lemma any_string_inj (a b : string) :
  Some (any_string a) = Some (@any_string Count b) -> a = b.
Proof. by intros [= ->]. Qed.

(** X13: the map [GetRateLimitHeaders] builds keeps the four counts and
    the string forms of the two reset times, and nothing else: two
    snapshots give the same map exactly when they agree on those six
    values. *)
Theorem rateLimitMap_eq_iff (h1 h2 : Snapshot) :
  rateLimitMap ResetTime_String h1 = rateLimitMap ResetTime_String h2
  <-> kept h1 = kept h2.
Proof.
  split.
  - intros Heq.
    destruct (rateLimitMap_lookup ResetTime_String h1)
      as (A1 & B1 & C1 & D1 & E1 & F1).
    destruct (rateLimitMap_lookup ResetTime_String h2)
      as (A2 & B2 & C2 & D2 & E2 & F2).
    rewrite Heq in A1, B1, C1, D1, E1, F1.
    rewrite A1 in A2; rewrite B1 in B2; rewrite C1 in C2;
      rewrite D1 in D2; rewrite E1 in E2; rewrite F1 in F2.
    apply any_count_inj in A2, B2, C2, D2.
    apply any_string_inj in E2, F2.
    unfold kept. congruence.
  - unfold kept, rateLimitMap. intros [= -> -> -> -> -> ->]. done.
Qed.

End RateLimitMap.
